(** * gr-osmosdr: the AirspyHF source block and the bladeRF common layer

    A shallow embedding of
      - [airspyhf_source_c] (header and implementation), and
      - [lib/bladerf/bladerf_common.cc],
    followed by the properties of the streaming bridge, of the device
    cache and of the parameter setters.

    Conventions.
      - C++ [double] is Rocq's primitive binary64 [float].
      - Fixed-width integers are [Z] with the conversion written out.
      - A call into libairspyhf or libbladeRF is a call into an interface
        whose answer is an input of the model; the calls made are recorded.
      - What is printed through the logging macros is recorded as
        structured messages. *)

From Stdlib Require Import ZArith Bool Lia.
From Stdlib Require Import PrimFloat SpecFloat FloatOps Uint63.
From stdpp Require Import base list strings gmap pretty.

Local Open Scope Z_scope.

(* ===================================================================== *)
(** * Part I: the embedding                                               *)
(* ===================================================================== *)

(** ** C++ outcomes and conversions *)

Module Cxx.

(** How the evaluation of a C++ function ends. *)
Inductive outcome (A : Type) : Type :=
| Ok (a : A)                (* normal return *)
| Throw (what : string)     (* an exception leaves the function *)
| AssertFail                (* [assert] failed: the process aborts *)
| Undefined.                (* undefined behaviour *)
Arguments Ok {A} a.
Arguments Throw {A} what.
Arguments AssertFail {A}.
Arguments Undefined {A}.

Definition bind {A B} (m : outcome A) (k : A -> outcome B) : outcome B :=
  match m with
  | Ok a => k a
  | Throw w => Throw w
  | AssertFail => AssertFail
  | Undefined => Undefined
  end.

(** [static_cast<uint32_t>] of an [int]. *)
Definition to_uint32 (z : Z) : Z := z mod 2 ^ 32.

(** The integral value of a finite [double] with its fraction discarded. *)
Definition trunc (f : float) : option Z :=
  match Prim2SF f with
  | S754_zero _ => Some 0
  | S754_finite s m e =>
      let a := if 0 <=? e then Z.pos m * 2 ^ e else Z.pos m / 2 ^ (- e) in
      Some (if s then - a else a)
  | S754_infinity _ | S754_nan => None
  end.

(** [std::round]: the nearest integral value, halfway cases away from
    zero; [None] stands for the NaN and the infinities, which
    [std::round] returns as they are. *)
Definition round (f : float) : option Z :=
  match Prim2SF f with
  | S754_zero _ => Some 0
  | S754_finite s m e =>
      let a := if 0 <=? e then Z.pos m * 2 ^ e
               else (Z.pos m + 2 ^ (- e - 1)) / 2 ^ (- e) in
      Some (if s then - a else a)
  | S754_infinity _ | S754_nan => None
  end.

(** Conversion of a floating value, given by its truncated integral
    value, to an unsigned type of [bits] bits: undefined when the
    truncated value is not representable ([conv.fpint]). *)
Definition to_unsigned (bits : Z) (v : option Z) : outcome Z :=
  match v with
  | Some z => if (0 <=? z) && (z <? 2 ^ bits) then Ok z else Undefined
  | None => Undefined
  end.

(** Conversion of a floating value to [int], likewise. *)
Definition to_int32 (v : option Z) : outcome Z :=
  match v with
  | Some z => if (- 2 ^ 31 <=? z) && (z <? 2 ^ 31) then Ok z else Undefined
  | None => Undefined
  end.

(** Conversion of an integer to [double], to the nearest value. *)
Definition of_int (z : Z) : float :=
  SF2Prim (binary_normalize prec emax z 0 false).

End Cxx.

Import Cxx.

Notation "'letm' x := m 'in' k" := (Cxx.bind m (fun x => k))
  (at level 10, x name, m at level 100, k at level 200).

(** Lines written to [std::cout] / [std::cerr] by the logging macros. *)
Inductive shown : Type :=
| SStr (s : string)
| SInt (z : Z)
| SFloat (f : float)
| SBool (b : bool).

Inductive severity : Type := INFO | WARNING.

Record message : Type := Message {
  msg_severity : severity;
  msg_function : string;      (* __FUNCTION__ *)
  msg_text : list shown
}.

(* --------------------------------------------------------------------- *)
(** ** airspyhf_source_c: parameters and gains                            *)
(* --------------------------------------------------------------------- *)

Module AirspyHF.

Definition AIRSPYHF_SUCCESS : Z := 0.

(** Calls into libairspyhf that program or query the device. *)
Inductive hw_call : Type :=
| airspyhf_set_samplerate (samplerate : Z)
| airspyhf_is_low_if
| airspyhf_set_freq (freq : float)
| airspyhf_set_hf_att (value : Z)
| airspyhf_set_hf_lna (flag : Z)
| airspyhf_set_hf_agc (flag : bool).

(** The members the setters and getters use. The implementation file
    names the gain members [_att], [_lna] and [_agc]; they hold the
    [uint8_t] values and the flag that are compared with and assigned
    from below. [hw] and [out] record, oldest first, the driver calls
    made and the lines logged. *)
Record airspyhf_source_c : Type := Source {
  _sample_rate : float;
  _center_freq : float;
  _att : Z;
  _lna : Z;
  _agc : bool;
  hw : list hw_call;
  out : list message
}.

Definition call (c : hw_call) (s : airspyhf_source_c) : airspyhf_source_c :=
  Source (_sample_rate s) (_center_freq s) (_att s) (_lna s) (_agc s)
         (hw s ++ [c]) (out s).

Definition log (m : message) (s : airspyhf_source_c) : airspyhf_source_c :=
  Source (_sample_rate s) (_center_freq s) (_att s) (_lna s) (_agc s)
         (hw s) (out s ++ [m]).

Definition with_sample_rate (r : float) (s : airspyhf_source_c) :=
  Source r (_center_freq s) (_att s) (_lna s) (_agc s) (hw s) (out s).
Definition with_center_freq (f : float) (s : airspyhf_source_c) :=
  Source (_sample_rate s) f (_att s) (_lna s) (_agc s) (hw s) (out s).
Definition with_att (v : Z) (s : airspyhf_source_c) :=
  Source (_sample_rate s) (_center_freq s) v (_lna s) (_agc s) (hw s) (out s).
Definition with_lna (v : Z) (s : airspyhf_source_c) :=
  Source (_sample_rate s) (_center_freq s) (_att s) v (_agc s) (hw s) (out s).
Definition with_agc (b : bool) (s : airspyhf_source_c) :=
  Source (_sample_rate s) (_center_freq s) (_att s) (_lna s) b (hw s) (out s).

Definition AIRSPYHF_INFO (fn : string) (text : list shown) :=
  log (Message INFO fn text).
Definition AIRSPYHF_WARNING (fn : string) (text : list shown) :=
  log (Message WARNING fn text).

(** [set_sample_rate]; [ret] and [low_if] are the driver's answers to
    [airspyhf_set_samplerate] and [airspyhf_is_low_if]. *)
Definition set_sample_rate (ret low_if : Z) (rate : float)
    (s : airspyhf_source_c) : outcome (float * airspyhf_source_c) :=
  letm samplerate := to_unsigned 32 (trunc rate) in
  let s := call (airspyhf_set_samplerate samplerate) s in
  let s :=
    if ret =? AIRSPYHF_SUCCESS then
      let s := with_sample_rate rate s in
      let s := call airspyhf_is_low_if s in
      let s := AIRSPYHF_INFO "set_sample_rate"
                 [SStr "samplerate: "; SFloat rate] s in
      AIRSPYHF_INFO "set_sample_rate" [SStr "is_low_if: "; SInt low_if] s
    else s in
  Ok (_sample_rate s, s).

Definition get_sample_rate (s : airspyhf_source_c) : float := _sample_rate s.

(** [set_center_freq]; [ret] is the answer of [airspyhf_set_freq]. *)
Definition set_center_freq (ret : Z) (freq : float)
    (s : airspyhf_source_c) : outcome (float * airspyhf_source_c) :=
  let s := call (airspyhf_set_freq freq) s in
  let s :=
    if ret =? AIRSPYHF_SUCCESS then with_center_freq freq s
    else AIRSPYHF_WARNING "set_center_freq" [SStr "set_center_freq failed"] s in
  Ok (_center_freq s, s).

Definition get_center_freq (s : airspyhf_source_c) : float := _center_freq s.

(** Gain conversions. *)
Definition _airspyhf_lna_db_to_flag (db : float) : Z :=
  if (3 <=? db)%float then 1 else 0.

Definition _airspyhf_lna_flag_to_db (flag : Z) : float :=
  if flag =? 0 then 0%float else 6%float.

Definition _airspyhf_att_db_to_value (db : float) : outcome Z :=
  to_unsigned 8 (round (- db / 6)%float).

Definition _airspyhf_att_value_to_db (value : Z) : float :=
  (of_int value * -6)%float.

(** [set_gain (gain, name, chan)] with [chan == 0]; [ret] is the answer
    of the driver call, when one is made. *)
Definition set_gain (ret : Z) (gain : float) (name : string)
    (s : airspyhf_source_c) : outcome (float * airspyhf_source_c) :=
  if String.eqb name "ATT" then
    letm att := _airspyhf_att_db_to_value gain in
    letm s :=
      (if negb (_att s =? att) then
         let s := call (airspyhf_set_hf_att att) s in
         if ret =? AIRSPYHF_SUCCESS then
           let s := with_att att s in
           Ok (AIRSPYHF_INFO "set_gain" [SStr "att: "; SInt (_att s)] s)
         else AssertFail
       else Ok s) in
    Ok (_airspyhf_att_value_to_db (_att s), s)
  else if String.eqb name "LNA" then
    let lna := _airspyhf_lna_db_to_flag gain in
    letm s :=
      (if negb (_lna s =? lna) then
         let s := call (airspyhf_set_hf_lna lna) s in
         if ret =? AIRSPYHF_SUCCESS then
           let s := with_lna lna s in
           Ok (AIRSPYHF_INFO "set_gain" [SStr "lna: "; SInt (_lna s)] s)
         else AssertFail
       else Ok s) in
    Ok (_airspyhf_lna_flag_to_db (_lna s), s)
  else
    Ok (0%float,
        AIRSPYHF_WARNING "set_gain" [SStr "unknown gain: "; SStr name] s).

Definition get_gain (name : string) (s : airspyhf_source_c)
    : float * airspyhf_source_c :=
  if String.eqb name "ATT" then (_airspyhf_att_value_to_db (_att s), s)
  else if String.eqb name "LNA" then (_airspyhf_lna_flag_to_db (_lna s), s)
  else (0%float,
        AIRSPYHF_WARNING "get_gain" [SStr "unknown gain: "; SStr name] s).

(** [set_gain_mode (automatic, chan)] with [chan == 0] and a device;
    a failed [assert] ends the evaluation with [AssertFail]. *)
Definition set_gain_mode (ret : Z) (automatic : bool)
    (s : airspyhf_source_c) : outcome (bool * airspyhf_source_c) :=
  letm s :=
    (if negb (eqb (_agc s) automatic) then
       let s := with_agc automatic s in
       let s := call (airspyhf_set_hf_agc automatic) s in
       if ret =? AIRSPYHF_SUCCESS then
         Ok (AIRSPYHF_INFO "set_gain_mode" [SStr "AGC: "; SBool (_agc s)] s)
       else AssertFail
     else Ok s) in
  Ok (_agc s, s).

Definition get_gain_mode (s : airspyhf_source_c) : bool := _agc s.

(** The members as the constructor leaves them before its own calls to
    [set_center_freq] and [set_sample_rate]. *)
Definition constructed : airspyhf_source_c :=
  Source 0%float 0%float 0 1 true [] [].

(** The multiples of 6 dB of the ATT range, [-48, 0]. *)
Definition att_steps : list float :=
  [0; -6; -12; -18; -24; -30; -36; -42; -48]%float.

(** The quantised value of [g], converted back, compares equal to [g]. *)
Definition quantised_is_request (g : float) : bool :=
  match round (- g / 6)%float with
  | Some r => ((of_int r * -6) =? g)%float
  | None => false
  end.

(** The value [v] of the attenuator, given back as decibels, converts
    to [v] again. *)
Definition value_is_fixed (v : Z) : bool :=
  match _airspyhf_att_db_to_value (_airspyhf_att_value_to_db v) with
  | Ok v' => v' =? v
  | _ => false
  end.

End AirspyHF.

(* --------------------------------------------------------------------- *)
(** ** airspyhf_source_c: the streaming bridge                            *)
(* --------------------------------------------------------------------- *)

(** [work], [airspyhf_rx_callback], [start] and [stop] run on different
    threads and meet in [_stream_buff], guarded by [_stream_mutex] and the
    two condition variables. Each thread is a program counter over the
    statements of its function; a step executes a few consecutive
    statements, never more than one read of the driver's streaming flag,
    and ends at the latest where the thread waits or returns. Steps of
    different threads, device faults and spurious wake-ups interleave
    freely; a thread that needs the lock steps only when it is free.
    One consumer thread calls [work], one driver thread calls the
    callback, and a third party calls [stop] and [start]. *)

Module Bridge.

Definition AIRSPYHF_SUCCESS : Z := 0.

(** [WORK_DONE] of gnuradio/block.h. *)
Definition WORK_DONE : Z := -1.

(** Conversion of a [uint32_t] to the [int] that [work] returns. *)
Definition to_int (z : Z) : Z := (z + 2 ^ 31) mod 2 ^ 32 - 2 ^ 31.

(** A non-null address; [None] is [nullptr]. *)
Definition ptr : Type := nat.

Record airspyhf_transfer_t : Type := Transfer {
  samples : ptr;
  dropped_samples : Z
}.

Inductive thread : Type := T_work | T_callback | T_stop.

(** Where the thread in [work] stands. *)
Inductive work_pc : Type :=
| W_idle
| W_lock (noutput_items : Z) (out0 : ptr)   (* taking the stream lock *)
| W_check (noutput_items : Z) (out0 : ptr)  (* the two early returns *)
| W_offer (out0 : ptr)                      (* store the buffer, notify *)
| W_loop                                    (* test of the wait loop *)
| W_wait                                    (* in _callback_done_cond.wait *)
| W_relock                                  (* woken, taking the lock back *)
| W_returned (r : Z).

(** Where the thread in [airspyhf_rx_callback] stands. *)
Inductive callback_pc : Type :=
| K_idle
| K_lock (t : airspyhf_transfer_t)
| K_loop (t : airspyhf_transfer_t)          (* test of the wait loop *)
| K_wait (t : airspyhf_transfer_t)          (* in _stream_cond.wait *)
| K_relock (t : airspyhf_transfer_t)
| K_warn (t : airspyhf_transfer_t)          (* the dropped_samples test *)
| K_copy (t : airspyhf_transfer_t)          (* the guarded memcpy *)
| K_clear                                   (* clear, notify, return *)
| K_returned (r : Z).

(** Where the thread in [stop] stands. *)
Inductive stop_pc : Type :=
| S_idle
| S_lock
| S_stop                                    (* airspyhf_stop and after *)
| S_returned (r : bool).

(** What the bridge does to the world, newest first in [trace]. *)
Inductive event : Type :=
| Store (b : ptr)                  (* _stream_buff = output_items[0] *)
| Memcpy (dst src : ptr) (n : Z)   (* n samples of sizeof(gr_complex) *)
| Clear                            (* _stream_buff = nullptr *)
| Notify_stream                    (* _stream_cond.notify_one() *)
| Notify_done                      (* _callback_done_cond.notify_one() *)
| Warn_dropped (k : Z)             (* "dropped_samples: " << k *)
| Info_start
| Info_stop.

Record state : Type := State {
  _airspyhf_output_size : Z;
  _dropped_samples : Z;
  _stream_buff : option ptr;
  is_streaming : bool;             (* airspyhf_is_streaming(_dev) *)
  _stream_mutex : option thread;   (* the owner of the lock *)
  consumer : work_pc;
  callback : callback_pc;
  stopper : stop_pc;
  trace : list event
}.

Definition set_buff (b : option ptr) (s : state) : state :=
  State (_airspyhf_output_size s) (_dropped_samples s) b (is_streaming s)
        (_stream_mutex s) (consumer s) (callback s) (stopper s) (trace s).
Definition set_streaming (b : bool) (s : state) : state :=
  State (_airspyhf_output_size s) (_dropped_samples s) (_stream_buff s) b
        (_stream_mutex s) (consumer s) (callback s) (stopper s) (trace s).
Definition set_mutex (m : option thread) (s : state) : state :=
  State (_airspyhf_output_size s) (_dropped_samples s) (_stream_buff s)
        (is_streaming s) m (consumer s) (callback s) (stopper s) (trace s).
Definition set_consumer (pc : work_pc) (s : state) : state :=
  State (_airspyhf_output_size s) (_dropped_samples s) (_stream_buff s)
        (is_streaming s) (_stream_mutex s) pc (callback s) (stopper s)
        (trace s).
Definition set_callback (pc : callback_pc) (s : state) : state :=
  State (_airspyhf_output_size s) (_dropped_samples s) (_stream_buff s)
        (is_streaming s) (_stream_mutex s) (consumer s) pc (stopper s)
        (trace s).
Definition set_stopper (pc : stop_pc) (s : state) : state :=
  State (_airspyhf_output_size s) (_dropped_samples s) (_stream_buff s)
        (is_streaming s) (_stream_mutex s) (consumer s) (callback s) pc
        (trace s).
Definition emit (e : event) (s : state) : state :=
  State (_airspyhf_output_size s) (_dropped_samples s) (_stream_buff s)
        (is_streaming s) (_stream_mutex s) (consumer s) (callback s)
        (stopper s) (e :: trace s).

(** [std::unique_lock<std::mutex> lock(_stream_mutex)], and taking the
    lock back after a wait: possible when nobody holds it. *)
Definition acquire (t : thread) (s : state) : option state :=
  match _stream_mutex s with
  | None => Some (set_mutex (Some t) s)
  | Some _ => None
  end.

(** [_stream_cond.notify_one()]: only the callback waits on it. *)
Definition notify_stream (s : state) : state :=
  let s := emit Notify_stream s in
  match callback s with
  | K_wait t => set_callback (K_relock t) s
  | _ => s
  end.

(** [_callback_done_cond.notify_one()]: only [work] waits on it. *)
Definition notify_done (s : state) : state :=
  let s := emit Notify_done s in
  match consumer s with
  | W_wait => set_consumer W_relock s
  | _ => s
  end.

(** [return r] from [work]: the lock is released on the way out. *)
Definition return_work (r : Z) (s : state) : state :=
  set_mutex None (set_consumer (W_returned r) s).

Definition work_step (s : state) : option state :=
  match consumer s with
  | W_lock n out0 =>
      s ← acquire T_work s; Some (set_consumer (W_check n out0) s)
  | W_check n out0 =>
      if negb (is_streaming s) then Some (return_work WORK_DONE s)
      else if to_uint32 n <? _airspyhf_output_size s then
        Some (return_work 0 s)
      else Some (set_consumer (W_offer out0) s)
  | W_offer out0 =>
      let s := emit (Store out0) (set_buff (Some out0) s) in
      let s := notify_stream s in
      Some (set_consumer W_loop s)
  | W_loop =>
      if bool_decide (_stream_buff s <> None) && is_streaming s then
        Some (set_consumer W_wait (set_mutex None s))
      else Some (return_work (to_int (_airspyhf_output_size s)) s)
  | W_relock =>
      s ← acquire T_work s; Some (set_consumer W_loop s)
  | W_idle | W_wait | W_returned _ => None
  end.

Definition callback_step (s : state) : option state :=
  match callback s with
  | K_lock t =>
      s ← acquire T_callback s; Some (set_callback (K_loop t) s)
  | K_loop t =>
      if bool_decide (_stream_buff s = None) && is_streaming s then
        Some (set_callback (K_wait t) (set_mutex None s))
      else Some (set_callback (K_warn t) s)
  | K_relock t =>
      s ← acquire T_callback s; Some (set_callback (K_loop t) s)
  | K_warn t =>
      let s := if dropped_samples t =? 0 then s
               else emit (Warn_dropped (dropped_samples t)) s in
      Some (set_callback (K_copy t) s)
  | K_copy t =>
      let s := match _stream_buff s with
               | Some b => emit (Memcpy b (samples t)
                                   (_airspyhf_output_size s)) s
               | None => s
               end in
      Some (set_callback K_clear s)
  | K_clear =>
      let s := emit Clear (set_buff None s) in
      let s := notify_done s in
      Some (set_mutex None (set_callback (K_returned 0) s))
  | K_idle | K_wait _ | K_returned _ => None
  end.

(** [stop]; [ret] is the answer of [airspyhf_stop], after which the
    device is not streaming. A failed [assert] ends the process: the
    state has no successor. *)
Definition stop_step (ret : Z) (s : state) : option state :=
  match stopper s with
  | S_lock => s ← acquire T_stop s; Some (set_stopper S_stop s)
  | S_stop =>
      let s := set_streaming false s in
      if ret =? AIRSPYHF_SUCCESS then
        let s := emit Info_stop s in
        Some (set_mutex None (set_stopper (S_returned true) s))
      else None
  | S_idle | S_returned _ => None
  end.

(** [start]; [ret] is the answer of [airspyhf_start], after which the
    device is streaming. It takes no lock. *)
Definition start (ret : Z) (s : state) : option state :=
  if ret =? AIRSPYHF_SUCCESS then
    Some (emit Info_start (set_streaming true s))
  else None.

(** What can happen next. *)
Inductive action : Type :=
| Call_work (noutput_items : Z) (out0 : ptr)  (* the scheduler calls work *)
| Step_work
| Wake_work                                   (* spurious wake-up *)
| Call_callback (t : airspyhf_transfer_t)     (* the driver has a block *)
| Step_callback
| Wake_callback                               (* spurious wake-up *)
| Call_stop
| Step_stop (ret : Z)
| Call_start (ret : Z)
| Hw_fault.                                   (* the device stops by itself *)

Definition step (a : action) (s : state) : option state :=
  match a with
  | Call_work n out0 =>
      match consumer s with
      | W_idle | W_returned _ => Some (set_consumer (W_lock n out0) s)
      | _ => None
      end
  | Step_work => work_step s
  | Wake_work =>
      match consumer s with
      | W_wait => Some (set_consumer W_relock s)
      | _ => None
      end
  | Call_callback t =>
      match callback s with
      | K_idle | K_returned _ => Some (set_callback (K_lock t) s)
      | _ => None
      end
  | Step_callback => callback_step s
  | Wake_callback =>
      match callback s with
      | K_wait t => Some (set_callback (K_relock t) s)
      | _ => None
      end
  | Call_stop =>
      match stopper s with
      | S_idle | S_returned _ => Some (set_stopper S_lock s)
      | _ => None
      end
  | Step_stop ret => stop_step ret s
  | Call_start ret => start ret s
  | Hw_fault => Some (set_streaming false s)
  end.

Fixpoint run (acts : list action) (s : state) : option state :=
  match acts with
  | [] => Some s
  | a :: acts => s ← step a s; run acts s
  end.

(** The object as the constructor leaves it: [output_size] is what
    [airspyhf_get_output_size] reported; [_dropped_samples] has no
    initialiser, [dropped] is whatever the member holds. *)
Definition constructed (output_size dropped : Z) : state :=
  State output_size dropped None false None W_idle K_idle S_idle [].

Definition reachable (s : state) : Prop :=
  exists output_size dropped acts,
    run acts (constructed output_size dropped) = Some s.

(** Reading a trace: which buffer is on offer and whether it has been
    written since it was offered. [None] when a [Memcpy] does not go
    into the buffer on offer, does not carry [n] samples, or is the
    second one into the same offer. *)
Record audit : Type := Audit { offered : option ptr; written : bool }.

Definition audit_event (n : Z) (e : event) (a : audit) : option audit :=
  match e with
  | Store b => Some (Audit (Some b) false)
  | Memcpy dst _ k =>
      if bool_decide (offered a = Some dst) && (k =? n) && negb (written a)
      then Some (Audit (offered a) true) else None
  | Clear => Some (Audit None false)
  | _ => Some a
  end.

Fixpoint replay (n : Z) (tr : list event) : option audit :=
  match tr with
  | [] => Some (Audit None false)
  | e :: tr => a ← replay n tr; audit_event n e a
  end.

(** The statements of each function that run with the lock held. *)
Definition work_locked (pc : work_pc) : bool :=
  match pc with W_check _ _ | W_offer _ | W_loop => true | _ => false end.
Definition callback_locked (pc : callback_pc) : bool :=
  match pc with
  | K_loop _ | K_warn _ | K_copy _ | K_clear => true
  | _ => false
  end.
Definition stop_locked (pc : stop_pc) : bool :=
  match pc with S_stop => true | _ => false end.

(** The lock is held exactly by the thread that stands at one of its
    locked statements. *)
Definition lock_discipline (s : state) : Prop :=
  (_stream_mutex s = Some T_work <-> work_locked (consumer s) = true) /\
  (_stream_mutex s = Some T_callback <->
     callback_locked (callback s) = true) /\
  (_stream_mutex s = Some T_stop <-> stop_locked (stopper s) = true).

(** The trace reads well, the buffer on offer is the one in the slot,
    and a written buffer still in the slot means the callback stands
    before its clear. *)
Definition slot_audited (s : state) : Prop :=
  exists a,
    replay (_airspyhf_output_size s) (trace s) = Some a /\
    offered a = _stream_buff s /\
    (written a = true -> callback s = K_clear /\ is_Some (offered a)).

(** [work] is past its early returns and has not returned yet. *)
Definition committed (pc : work_pc) : bool :=
  match pc with
  | W_offer _ | W_loop | W_wait | W_relock => true
  | _ => false
  end.

Definition is_call_work (a : action) : bool :=
  match a with Call_work _ _ => true | _ => false end.

(** Some histories used below. The consumer offers buffer 7 of 1024
    samples and waits. *)
Definition offer_and_wait : list action :=
  [Call_start 0; Call_work 1024 7%nat; Step_work; Step_work; Step_work;
   Step_work].

Definition waiting : state :=
  State 1024 0 (Some 7%nat) true None W_wait K_idle S_idle
    [Notify_stream; Store 7%nat; Info_start].

(** The callback, given block 99 with 5 samples lost before it, has
    copied and not yet cleared. *)
Definition mid_copy : state :=
  State 1024 0 (Some 7%nat) true (Some T_callback) W_wait K_clear S_idle
    [Memcpy 7%nat 99%nat 1024; Warn_dropped 5; Notify_stream; Store 7%nat;
     Info_start].

(** The values the three functions have returned are the ones their
    [return] statements name. *)
Definition returns_ok (s : state) : Prop :=
  (forall r, consumer s = W_returned r ->
     r = WORK_DONE \/ r = 0 \/ r = to_int (_airspyhf_output_size s)) /\
  (forall r, callback s = K_returned r -> r = 0) /\
  (forall r, stopper s = S_returned r -> r = true).

(** The blocks copied out, oldest first, and the blocks the driver has
    handed to the callback. *)
Definition copied (tr : list event) : list ptr :=
  rev (omap (fun e => match e with Memcpy _ src _ => Some src | _ => None end)
            tr).

Definition handed (acts : list action) : list ptr :=
  omap (fun a => match a with
                 | Call_callback t => Some (samples t)
                 | _ => None
                 end) acts.

(** The block the callback holds and has not copied yet. *)
Definition in_hand (pc : callback_pc) : option airspyhf_transfer_t :=
  match pc with
  | K_lock t | K_loop t | K_wait t | K_relock t | K_warn t | K_copy t => Some t
  | K_idle | K_clear | K_returned _ => None
  end.

(** The blocks copied are blocks handed over, in their order, the one
    in hand not among them. *)
Definition hand_over (pre : list ptr) (s : state) : Prop :=
  match in_hand (callback s) with
  | Some t => exists pre', pre = pre' ++ [samples t] /\
                           sublist (copied (trace s)) pre'
  | None => sublist (copied (trace s)) pre
  end.

(** The step of the thread [th], with a driver that stops as asked. *)
Definition step_of (th : thread) : action :=
  match th with
  | T_work => Step_work
  | T_callback => Step_callback
  | T_stop => Step_stop AIRSPYHF_SUCCESS
  end.

(** One delivery, the consumer first: it offers its buffer and waits,
    the callback copies, the consumer wakes and returns. *)
Definition work_first (n : Z) (out0 : ptr) (t : airspyhf_transfer_t)
    : list action :=
  [Call_start 0; Call_work n out0; Step_work; Step_work; Step_work;
   Step_work; Call_callback t; Step_callback; Step_callback; Step_callback;
   Step_callback; Step_callback; Step_work; Step_work].

(** One delivery, the callback first: it waits for a buffer, the
    consumer's offer wakes it. *)
Definition callback_first (n : Z) (out0 : ptr) (t : airspyhf_transfer_t)
    : list action :=
  [Call_start 0; Call_callback t; Step_callback; Step_callback;
   Call_work n out0; Step_work; Step_work; Step_work; Step_work;
   Step_callback; Step_callback; Step_callback; Step_callback;
   Step_callback; Step_work; Step_work].

(** [work], asked for 5 items of a block of 1024, has returned 0. *)
Definition returned_zero : state :=
  State 1024 0 None true None (W_returned 0) K_idle S_idle [Info_start].

End Bridge.

(* --------------------------------------------------------------------- *)
(** ** bladerf_common: sample rate and gains                              *)
(* --------------------------------------------------------------------- *)

Module BladeRF.

(** [BLADERF_ERR_UNSUPPORTED] of libbladeRF.h. *)
Definition BLADERF_ERR_UNSUPPORTED : Z := -8.

Definition SYSTEM_GAIN_NAME : string := "system".

Record bladerf_rational_rate : Type := Rational {
  integer : Z;
  num : Z;
  den : Z
}.

Inductive bladerf_lna_gain : Type :=
| BLADERF_LNA_GAIN_UNKNOWN
| BLADERF_LNA_GAIN_BYPASS
| BLADERF_LNA_GAIN_MID
| BLADERF_LNA_GAIN_MAX.

(** The calls into libbladeRF made below, on a device whose state is
    [dev]. A call answers with its status, the value left in its output
    parameter if it has one, and the device afterwards if it writes. *)
Class libbladeRF (dev : Type) : Type := {
  bladerf_set_rational_sample_rate :
    dev -> Z -> bladerf_rational_rate -> Z * bladerf_rational_rate * dev;
  bladerf_get_rational_sample_rate : dev -> Z -> Z * bladerf_rational_rate;
  bladerf_set_gain : dev -> Z -> Z -> Z * dev;
  bladerf_set_gain_stage : dev -> Z -> string -> Z -> Z * dev;
  bladerf_get_gain : dev -> Z -> Z * Z;
  bladerf_get_gain_stage : dev -> Z -> string -> Z * Z;
  (* the calls of the BLADERF_COMPATIBILITY build *)
  bladerf_set_lna_gain : dev -> bladerf_lna_gain -> Z * dev;
  bladerf_set_rxvga1 : dev -> Z -> Z * dev;
  bladerf_set_rxvga2 : dev -> Z -> Z * dev;
  bladerf_get_lna_gain : dev -> Z * bladerf_lna_gain;
  bladerf_get_rxvga1 : dev -> Z * Z;
  bladerf_get_rxvga2 : dev -> Z * Z
}.

(** The members used here: the device behind [_dev] and what has been
    logged, oldest first. *)
Record bladerf_common (dev : Type) : Type := Common {
  _dev : dev;
  out : list message
}.
Arguments Common {dev} _ _.
Arguments _dev {dev} _.
Arguments out {dev} _.

Section Parameters.
Context {dev : Type} `{libbladeRF dev}.

Definition with_dev (d : dev) (c : bladerf_common dev) : bladerf_common dev :=
  Common d (out c).

(** Modelled from the spec: the macros [BLADERF_WARNING],
    [BLADERF_WARN_STATUS] and [BLADERF_THROW_STATUS] of bladerf_common.h,
    which is not among the sources. A condition handled locally is
    logged, so the first two write a line, the second with the status;
    a condition that propagates is thrown, which is [Throw] below. *)
Definition BLADERF_WARNING (fn : string) (text : list shown)
    (c : bladerf_common dev) : bladerf_common dev :=
  Common (_dev c) (out c ++ [Message WARNING fn text]).

Definition BLADERF_WARN_STATUS (fn : string) (status : Z) (text : list shown)
    (c : bladerf_common dev) : bladerf_common dev :=
  Common (_dev c) (out c ++ [Message WARNING fn (text ++ [SInt status])]).

Definition rate_to_double (r : bladerf_rational_rate) : float :=
  (of_int (integer r) + (of_int (num r) / of_int (den r)))%float.

Definition set_sample_rate (rate : float) (ch : Z)
    (c : bladerf_common dev) : outcome (float * bladerf_common dev) :=
  letm i := to_unsigned 32 (trunc rate) in
  letm n := to_unsigned 64 (trunc ((rate - of_int i) * of_int 10000)%float) in
  let '(status, actual, d) :=
    bladerf_set_rational_sample_rate (_dev c) ch (Rational i n 10000) in
  if negb (status =? 0) then Throw "Failed to set sample rate"
  else Ok (rate_to_double actual, with_dev d c).

Definition get_sample_rate (ch : Z) (c : bladerf_common dev) : outcome float :=
  let '(status, rate) := bladerf_get_rational_sample_rate (_dev c) ch in
  if negb (status =? 0) then Throw "Failed to get sample rate"
  else Ok (rate_to_double rate).

(** [get_gain (name, ch)]; [compat] tells the BLADERF_COMPATIBILITY
    build from the other. *)
Definition get_gain (compat : bool) (name : string) (ch : Z)
    (c : bladerf_common dev) : float * bladerf_common dev :=
  let '(status, g) :=
    if compat then
      if String.eqb name "LNA" then
        let '(status, lna_g) := bladerf_get_lna_gain (_dev c) in
        (status,
         match lna_g with
         | BLADERF_LNA_GAIN_BYPASS => 0
         | BLADERF_LNA_GAIN_MID => 3
         | _ => 6
         end)
      else if String.eqb name "VGA1" then bladerf_get_rxvga1 (_dev c)
      else if String.eqb name "VGA2" then bladerf_get_rxvga2 (_dev c)
      else (BLADERF_ERR_UNSUPPORTED, 0)
    else
      if String.eqb name SYSTEM_GAIN_NAME then bladerf_get_gain (_dev c) ch
      else bladerf_get_gain_stage (_dev c) ch name in
  let c :=
    if negb (status =? 0) then
      BLADERF_WARN_STATUS "get_gain" status
        [SStr "Could not get gain for stage "; SStr name] c
    else c in
  (of_int g, c).

(** [set_gain (gain, name, ch)]. *)
Definition set_gain (compat : bool) (gain : float) (name : string) (ch : Z)
    (c : bladerf_common dev) : outcome (float * bladerf_common dev) :=
  letm r :=
    (if compat then
       if String.eqb name "LNA" then
         let g :=
           if (6 <=? gain)%float then BLADERF_LNA_GAIN_MAX
           else if (3 <=? gain)%float then BLADERF_LNA_GAIN_MID
           else BLADERF_LNA_GAIN_BYPASS in
         Ok (bladerf_set_lna_gain (_dev c) g)
       else if String.eqb name "VGA1" then
         letm g := to_int32 (trunc gain) in
         Ok (bladerf_set_rxvga1 (_dev c) g)
       else if String.eqb name "VGA2" then
         letm g := to_int32 (trunc gain) in
         Ok (bladerf_set_rxvga2 (_dev c) g)
       else Ok (BLADERF_ERR_UNSUPPORTED, _dev c)
     else
       letm g := to_int32 (trunc gain) in
       if String.eqb name SYSTEM_GAIN_NAME then
         Ok (bladerf_set_gain (_dev c) ch g)
       else Ok (bladerf_set_gain_stage (_dev c) ch name g)) in
  let '(status, d) := r in
  let c := with_dev d c in
  if status =? BLADERF_ERR_UNSUPPORTED then
    let c := BLADERF_WARNING "set_gain"
               [SStr "Gain stage "; SStr name;
                SStr " not supported by device"] c in
    Ok (get_gain compat name ch c)
  else if negb (status =? 0) then
    Throw "Failed to set gain for stage"
  else Ok (get_gain compat name ch c).

End Parameters.

(** *** The process-wide cache of open devices

    [_devs] is a list of [std::weak_ptr]; a [bladerf_sptr] is a
    [std::shared_ptr] whose deleter is [bladerf_common::close]. Both
    are modelled with their control blocks: a handle is the index of
    a block, the block holds the [struct bladerf *] and the number of
    owners, and a weak pointer is expired when that number is 0.
    The functions below are those of the source taken one at a time;
    how the calls of several clients follow one another is [apply]
    further down. *)

(** A [struct bladerf *]: one connection of the driver. *)
Definition raw : Type := nat.

Record control_block : Type := Block { cb_ptr : raw; cb_use : nat }.

Record devs : Type := Devs {
  blocks : list control_block;     (* every control block ever made *)
  _devs : list nat;                (* the cache, in list order *)
  connections : list raw           (* opened by the driver, not closed *)
}.

(** The calls into libbladeRF made by [open]. The driver chooses the
    unit it opens knowing the connections it already has. *)
Class libbladeRF_open (devinfo : Type) : Type := {
  bladerf_get_devinfo_from_str : string -> Z * devinfo;
  bladerf_open_with_devinfo : devinfo -> list raw -> Z * raw;
  bladerf_get_devinfo : raw -> Z * devinfo;
  bladerf_devinfo_matches : devinfo -> devinfo -> bool
}.

Definition use_count (h : nat) (w : devs) : nat :=
  match blocks w !! h with Some b => cb_use b | None => 0%nat end.

Definition get (h : nat) (w : devs) : raw :=
  match blocks w !! h with Some b => cb_ptr b | None => 0%nat end.

Definition expired (h : nat) (w : devs) : bool := (use_count h w =? 0)%nat.

Definition with_use (h : nat) (n : nat) (w : devs) : devs :=
  Devs (alter (fun b => Block (cb_ptr b) n) h (blocks w)) (_devs w)
       (connections w).

(** [bladerf_common::close]: the deleter. *)
Definition close (dev : raw) (w : devs) : devs :=
  let pruned := filter (fun h => expired h w = false) (_devs w) in
  Devs (blocks w) pruned (filter (fun r => r <> dev) (connections w)).

(** The destructor of one owner with the deleter run at once when it
    was the last: what a thread does that is not overtaken between the
    two. *)
Definition release (h : nat) (w : devs) : devs :=
  match use_count h w with
  | O => w
  | S n =>
      let w := with_use h n w in
      if (n =? 0)%nat then close (get h w) w else w
  end.

(** [bladerf_sptr(dev)] of a weak pointer: [std::bad_weak_ptr] when it
    is expired, one more owner otherwise. *)
Definition lock (h : nat) (w : devs) : option devs :=
  if expired h w then None else Some (with_use h (S (use_count h w)) w).

(** [bladerf_sptr(raw_dev, bladerf_common::close)]. *)
Definition make_shared (dev : raw) (w : devs) : nat * devs :=
  (length (blocks w),
   Devs (blocks w ++ [Block dev 1]) (_devs w) (connections w)).

Definition push_back (h : nat) (w : devs) : devs :=
  Devs (blocks w) (_devs w ++ [h]) (connections w).

Definition connect (dev : raw) (w : devs) : devs :=
  Devs (blocks w) (_devs w) (connections w ++ [dev]).

Section Cache.
Context {devinfo : Type} `{libbladeRF_open devinfo}.

(** The loop of [get_cached_device] over the entries [ws]; the
    result is the handle found, [None] for the empty [bladerf_sptr]. *)
Fixpoint get_cached_device_from (ws : list nat) (devinfo0 : devinfo)
    (w : devs) : outcome (option nat) * devs :=
  match ws with
  | [] => (Ok None, w)
  | dev :: ws =>
      match lock dev w with
      | None => (Throw "bad_weak_ptr", w)
      | Some w =>
          let '(status, other_devinfo) := bladerf_get_devinfo (get dev w) in
          let w := release dev w in
          if status <? 0 then
            (Throw "Failed to get devinfo for cached device", w)
          else if bladerf_devinfo_matches devinfo0 other_devinfo then
            match lock dev w with
            | None => (Throw "bad_weak_ptr", w)
            | Some w => (Ok (Some dev), w)
            end
          else get_cached_device_from ws devinfo0 w
      end
  end.

Definition get_cached_device (devinfo0 : devinfo) (w : devs)
    : outcome (option nat) * devs :=
  get_cached_device_from (_devs w) devinfo0 w.

Definition open (device_name : string) (w : devs)
    : outcome nat * devs :=
  let '(status, devinfo0) := bladerf_get_devinfo_from_str device_name in
  if status <? 0 then (Throw "Failed to get devinfo", w)
  else
    match get_cached_device devinfo0 w with
    | (Ok (Some cached_dev), w) => (Ok cached_dev, w)
    | (Ok None, w) =>
        let '(status, raw_dev) :=
          bladerf_open_with_devinfo devinfo0 (connections w) in
        if status <? 0 then (Throw "Failed to open device", w)
        else
          let w := connect raw_dev w in
          let '(dev, w) := make_shared raw_dev w in
          (Ok dev, push_back dev w)
    | (Throw e, w) => (Throw e, w)
    | (AssertFail, w) => (AssertFail, w)
    | (Undefined, w) => (Undefined, w)
    end.

(** What the clients of the cache do. A call of [open] holds
    [_devs_mutex] from its first statement to its return (line 1080),
    and so does the body of [close] (line 1117). The destructor of an
    owner is outside the lock: the number of owners drops first, and
    when it has reached 0 the deleter, [close], is due; it runs once it
    has the lock, and calls of [open] can get the lock before it.
    [due] holds the handles whose deleter is due and has not run. A
    drop is taken between two calls of [open]; one that falls between
    the making and the end of the temporary owner of line 1139 is not
    among these histories. *)
Inductive op : Type :=
| Open (device_name : string)
| Release (h : nat)              (* an owner of [h] lets go of it *)
| Close (h : nat).               (* the deleter of [h] runs *)

Record clients : Type := Clients {
  cache : devs;
  due : list nat
}.

(** One owner fewer. *)
Definition drop (h : nat) (w : devs) : devs :=
  with_use h (Nat.pred (use_count h w)) w.

Definition apply (o : op) (s : clients) : option clients :=
  match o with
  | Open device_name =>
      Some (Clients (snd (open device_name (cache s))) (due s))
  | Release h =>
      if expired h (cache s) then None
      else
        let w := drop h (cache s) in
        Some (Clients w (if expired h w then due s ++ [h] else due s))
  | Close h =>
      if bool_decide (h ∈ due s) then
        Some (Clients (close (get h (cache s)) (cache s))
                      (filter (fun h' => h' <> h) (due s)))
      else None
  end.

Fixpoint run (ops : list op) (s : clients) : option clients :=
  match ops with
  | [] => Some s
  | o :: ops => s ← apply o s; run ops s
  end.

(** The identity the driver reports for a cached handle. *)
Definition identity (w : devs) (h : nat) : devinfo :=
  snd (bladerf_get_devinfo (get h w)).

(** The first cached handle whose identity matches [devinfo0]. *)
Definition first_match (devinfo0 : devinfo) (w : devs) : option nat :=
  find (fun h => bladerf_devinfo_matches devinfo0 (identity w h)) (_devs w).

(** The state of the cache between two operations: the cached handles
    are the live ones, the driver answers for each, no two of them have
    the same identity, and the driver's connections are theirs, one
    each. *)
Record cache_ok (w : devs) : Prop := Cache_ok {
  cached_live : forall h, h ∈ _devs w -> use_count h w <> 0%nat;
  live_cached : forall h, use_count h w <> 0%nat -> h ∈ _devs w;
  cached_answer : forall h,
    h ∈ _devs w -> 0 <= (bladerf_get_devinfo (get h w)).1;
  cached_once : NoDup (_devs w);
  cached_distinct : forall h1 h2,
    h1 ∈ _devs w -> h2 ∈ _devs w ->
    identity w h1 = identity w h2 -> h1 = h2;
  connections_once : NoDup (connections w);
  connections_cached : forall r,
    r ∈ connections w <-> exists h, h ∈ _devs w /\ get h w = r
}.

End Cache.

Definition no_devs : devs := Devs [] [] [].

Definition no_clients : clients := Clients no_devs [].

(** Two devices open, each with one owner. *)
Definition two_devs : devs :=
  Devs [Block 2%nat 1%nat; Block 3%nat 1%nat] [0%nat; 1%nat] [2%nat; 3%nat].

(** *** A simulated driver for [open]

    A unit is known by its serial number, which also stands for its
    connection; the devinfo 0 stands for any unit. A name is read as the
    serial number that is its length. The driver opens the unit asked
    for unless it has it open already, and for "any unit" the first one
    above those it has open. *)
#[global] Instance sim_open : libbladeRF_open nat := {|
  bladerf_get_devinfo_from_str name := (0, String.length name);
  bladerf_open_with_devinfo d conns :=
    if (d =? 0)%nat then (0, S (foldr Nat.max 0%nat conns))
    else if bool_decide (d ∈ conns) then (-7, 0%nat)
    else (0, d);
  bladerf_get_devinfo r := (0, r);
  bladerf_devinfo_matches d i := (d =? 0)%nat || (d =? i)%nat
|}.

(** *** A simulated board

    It programs the integral part of a requested rate, has one gain
    stage, "full", besides the overall gain, and answers
    [BLADERF_ERR_UNSUPPORTED] for any other stage. *)
Record sim_device : Type := Sim {
  sim_rate : bladerf_rational_rate;
  sim_gain : Z;
  sim_lna : bladerf_lna_gain
}.

#[global] Instance sim_libbladeRF : libbladeRF sim_device := {|
  bladerf_set_rational_sample_rate d ch r :=
    let actual := Rational (integer r) 0 1 in
    (0, actual, Sim actual (sim_gain d) (sim_lna d));
  bladerf_get_rational_sample_rate d ch := (0, sim_rate d);
  bladerf_set_gain d ch g := (0, Sim (sim_rate d) g (sim_lna d));
  bladerf_set_gain_stage d ch stage g :=
    if String.eqb stage "full" then (0, Sim (sim_rate d) g (sim_lna d))
    else (BLADERF_ERR_UNSUPPORTED, d);
  bladerf_get_gain d ch := (0, sim_gain d);
  bladerf_get_gain_stage d ch stage :=
    if String.eqb stage "full" then (0, sim_gain d)
    else (BLADERF_ERR_UNSUPPORTED, 0);
  bladerf_set_lna_gain d g := (0, Sim (sim_rate d) (sim_gain d) g);
  bladerf_set_rxvga1 d g := (0, Sim (sim_rate d) g (sim_lna d));
  bladerf_set_rxvga2 d g := (0, Sim (sim_rate d) g (sim_lna d));
  bladerf_get_lna_gain d := (0, sim_lna d);
  bladerf_get_rxvga1 d := (0, sim_gain d);
  bladerf_get_rxvga2 d := (0, sim_gain d)
|}.

Definition sim_board : bladerf_common sim_device :=
  Common (Sim (Rational 1000000 0 1) 30 BLADERF_LNA_GAIN_MID) [].

(** *** A board without named gain stages

    It has the overall gain only, and turns down every call that names
    a stage as an invalid argument, with status -3. *)
Record plain_device : Type := Plain { plain_gain : Z }.

#[global] Instance plain_libbladeRF : libbladeRF plain_device := {|
  bladerf_set_rational_sample_rate d ch r := (0, r, d);
  bladerf_get_rational_sample_rate d ch := (0, Rational 1000000 0 1);
  bladerf_set_gain d ch g := (0, Plain g);
  bladerf_set_gain_stage d ch stage g := (-3, d);
  bladerf_get_gain d ch := (0, plain_gain d);
  bladerf_get_gain_stage d ch stage := (-3, 0);
  bladerf_set_lna_gain d g := (-3, d);
  bladerf_set_rxvga1 d g := (-3, d);
  bladerf_set_rxvga2 d g := (-3, d);
  bladerf_get_lna_gain d := (-3, BLADERF_LNA_GAIN_UNKNOWN);
  bladerf_get_rxvga1 d := (-3, 0);
  bladerf_get_rxvga2 d := (-3, 0)
|}.

Definition plain_board : bladerf_common plain_device := Common (Plain 30) [].

(** *** Library version and device name *)

(** [struct bladerf_version]: three [uint16_t]. *)
Record bladerf_version : Type := Version {
  major : Z;
  minor : Z;
  patch : Z
}.

Definition _version_greater_or_equal (version : bladerf_version)
    (major' minor' patch' : Z) : bool :=
  if major' <? major version then true
  else if (major version =? major') && (minor' <? minor version) then true
  else if (major version =? major') && (minor version =? minor')
          && (patch' <=? patch version) then true
  else false.

(** The version as one number, 16 bits a field. *)
Definition version_number (major' minor' patch' : Z) : Z :=
  (major' * 2 ^ 16 + minor') * 2 ^ 16 + patch'.

(** The calls into Boost: [lexical_cast] to [size_t] and to
    [unsigned int], [None] for [bad_lexical_cast], and [boost::format]'s
    rendering of a number for [%d]. *)
Class Boost : Type := {
  lexical_cast_size_t : string -> option N;
  lexical_cast_unsigned_int : string -> option N;
  format_d : Z -> string
}.

(** [dict_t] is a [std::map] from strings to strings. *)
Definition dict_t : Type := gmap string string.

Definition count (dict : dict_t) (key : string) : bool :=
  bool_decide (is_Some (dict !! key)).

Definition _get (dict : dict_t) (key : string) : string :=
  match dict !! key with
  | Some rv => rv
  | None => ""
  end.

(** [BLADERF_SERIAL_LENGTH] of libbladeRF.h: 32 characters and the
    terminator. *)
Definition BLADERF_SERIAL_LENGTH : nat := 33.

Section Init.
Context `{Boost}.

(** [init], the board identifier: the device name handed to [open];
    [ver] is the library version that [bladerf_version] reports. Any
    exception of the conversion is thrown on as a failure. *)
Definition init_device_name (dict : dict_t) (ver : bladerf_version)
    : outcome string :=
  if count dict "bladerf" then
    let value := _get dict "bladerf" in
    if (0 <? String.length value)%nat then
      if (String.length value <=? 2)%nat then
        match lexical_cast_unsigned_int value with
        | Some device_number =>
            Ok ("*:instance=" +:+ format_d (Z.of_N device_number))
        | None => Throw "Failed to use value as device number"
        end
      else if _version_greater_or_equal ver 1 4 1
              || (String.length value =? BLADERF_SERIAL_LENGTH - 1)%nat then
        Ok ("*:serial=" +:+ value)
      else Throw "A full serial number must be supplied"
    else Ok ""
  else Ok "".

(** The defaults of the buffer settings. *)
Definition NUM_BUFFERS : N := 512.
Definition NUM_SAMPLES_PER_BUFFER : N := 4 * 1024.
Definition NUM_TRANSFERS : N := 32.
Definition STREAM_TIMEOUT_MS : N := 3000.

Inductive bladerf_format : Type :=
| BLADERF_FORMAT_SC16_Q11
| BLADERF_FORMAT_SC16_Q11_META.

(** The members the buffer settings live in: three [size_t], an
    [unsigned int] and the sample format. *)
Record stream_config : Type := Stream_config {
  _num_buffers : N;
  _samples_per_buffer : N;
  _num_transfers : N;
  _stream_timeout : N;
  _format : bladerf_format
}.

(** The members as the constructor of [bladerf_common] leaves them. *)
Definition default_config : stream_config :=
  Stream_config NUM_BUFFERS NUM_SAMPLES_PER_BUFFER NUM_TRANSFERS
                STREAM_TIMEOUT_MS BLADERF_FORMAT_SC16_Q11.

(** A member read from the dictionary, by the conversion [cast], when
    the key is there. *)
Definition from_dict (cast : string -> option N) (dict : dict_t)
    (key : string) (member : N) : outcome N :=
  if count dict key then
    match cast (_get dict key) with
    | Some v => Ok v
    | None => Throw "bad lexical cast"
    end
  else Ok member.

(** [init], "Initialize buffer and sample configuration": the members
    as the dictionary sets them. *)
Definition init_dict (dict : dict_t) (c : stream_config)
    : outcome stream_config :=
  letm buffers :=
    from_dict lexical_cast_size_t dict "buffers" (_num_buffers c) in
  letm buflen :=
    from_dict lexical_cast_size_t dict "buflen" (_samples_per_buffer c) in
  letm transfers :=
    from_dict lexical_cast_size_t dict "transfers" (_num_transfers c) in
  letm timeout :=
    (if count dict "stream_timeout" then
       from_dict lexical_cast_unsigned_int dict "stream_timeout"
                 (_stream_timeout c)
     else from_dict lexical_cast_unsigned_int dict "stream_timeout_ms"
                    (_stream_timeout c)) in
  let format :=
    if count dict "enable_metadata" then BLADERF_FORMAT_SC16_Q11_META
    else _format c in
  Ok (Stream_config buffers buflen transfers timeout format).

(** [init], from "Require value to be >= 2" to its end: the settings
    made consistent, with the lines logged on the way. *)
Definition init_buffers (c : stream_config) : stream_config * list message :=
  let num_buffers :=
    if (_num_buffers c <=? 1)%N then NUM_BUFFERS else _num_buffers c in
  let '(samples_per_buffer, out) :=
    if (_samples_per_buffer c =? 0)%N then (NUM_SAMPLES_PER_BUFFER, [])
    else if (_samples_per_buffer c <? 1024)%N
            || negb (_samples_per_buffer c mod 1024 =? 0)%N then
      (NUM_SAMPLES_PER_BUFFER,
       [Message WARNING "init"
          [SStr "Invalid buflen value. A multiple of 1024 is required.";
           SInt (Z.of_N (_samples_per_buffer c));
           SInt (Z.of_N NUM_SAMPLES_PER_BUFFER)]])
    else (_samples_per_buffer c, []) in
  let '(num_transfers, out) :=
    if (_num_transfers c =? 0)%N then
      (N.min NUM_TRANSFERS (num_buffers / 2), out)
    else if (num_buffers <=? _num_transfers c)%N then
      (N.min NUM_TRANSFERS (num_buffers / 2),
       out ++ [Message WARNING "init"
                 [SStr "Clamping transfers";
                  SInt (Z.of_N (N.min NUM_TRANSFERS (num_buffers / 2)))]])
    else (_num_transfers c, out) in
  (Stream_config num_buffers samples_per_buffer num_transfers
                 (_stream_timeout c) (_format c),
   out ++ [Message INFO "init"
             [SStr "Buffers, samples per buffer, active transfers";
              SInt (Z.of_N num_buffers); SInt (Z.of_N samples_per_buffer);
              SInt (Z.of_N num_transfers)]]).

Definition init_stream_config (dict : dict_t) (c : stream_config)
    : outcome (stream_config * list message) :=
  letm c := init_dict dict c in Ok (init_buffers c).

(** A buffer configuration that [init] leaves alone. *)
Definition consistent (c : stream_config) : Prop :=
  (2 <= _num_buffers c)%N /\
  (1024 <= _samples_per_buffer c)%N /\
  (_samples_per_buffer c mod 1024 = 0)%N /\
  (1 <= _num_transfers c < _num_buffers c)%N.

End Init.

(** *** Clock sources *)

(** [BLADERF_VCTCXO_TAMER_DISABLED] of libbladeRF.h; the modes 1 and 2
    are the 1 PPS and the 10 MHz input, -1 is the invalid mode. *)
Definition BLADERF_VCTCXO_TAMER_DISABLED : Z := 0.
Definition BLADERF_VCTCXO_TAMER_INVALID : Z := -1.

Class libbladeRF_clock (dev : Type) : Type := {
  bladerf_set_vctcxo_tamer_mode : dev -> Z -> Z * dev;
  bladerf_get_vctcxo_tamer_mode : dev -> Z * Z
}.

Definition get_clock_sources : list string :=
  ["internal"; "external_1pps"; "external"].

(** [std::find (...) - begin ()]: the position of the first element
    equal to [x], the size of the list when there is none. *)
Definition find_index (x : string) (l : list string) : nat :=
  match list_find (fun y => y = x) l with
  | Some (i, _) => i
  | None => length l
  end.

Section Clock.
Context {dev : Type} `{libbladeRF_clock dev}.

Definition set_clock_source (source : string) (c : bladerf_common dev)
    : outcome (bladerf_common dev) :=
  let clock_sources := get_clock_sources in
  let index := find_index source clock_sources in
  let tamer_mode :=
    if (index <? length clock_sources)%nat then Z.of_nat index
    else BLADERF_VCTCXO_TAMER_DISABLED in
  let '(status, d) := bladerf_set_vctcxo_tamer_mode (_dev c) tamer_mode in
  if negb (status =? 0) then Throw "Failed to set VCTCXO tamer mode"
  else Ok (with_dev d c).

(** [clock_sources.at (tamer_mode)] throws [std::out_of_range] for a
    mode that is no index of the list. *)
Definition get_clock_source (c : bladerf_common dev) : outcome string :=
  let '(status, tamer_mode) := bladerf_get_vctcxo_tamer_mode (_dev c) in
  if negb (status =? 0) then Throw "Failed to get VCTCXO tamer mode"
  else if tamer_mode <? 0 then Throw "out_of_range"
  else match get_clock_sources !! Z.to_nat tamer_mode with
       | Some source => Ok source
       | None => Throw "out_of_range"
       end.

End Clock.

(** *** Channels and antennas *)

(** Of libbladeRF.h: a channel is an [int], twice the index of its RF
    port, plus one for a transmit channel. *)
Definition BLADERF_CHANNEL_INVALID : Z := -1.
Definition BLADERF_DIRECTION_MASK : Z := 1.

(** The [int] of an unsigned value: its low 32 bits, signed. *)
Definition as_int (z : Z) : Z := (z + 2 ^ 31) mod 2 ^ 32 - 2 ^ 31.

Definition BLADERF_CHANNEL_RX (ch : Z) : Z :=
  as_int (Z.lor (Z.shiftl ch 1) 0).
Definition BLADERF_CHANNEL_TX (ch : Z) : Z :=
  as_int (Z.lor (Z.shiftl ch 1) 1).

Inductive bladerf_direction : Type := BLADERF_RX | BLADERF_TX.

Definition BLADERF_CHANNEL (dir : bladerf_direction) (ch : Z) : Z :=
  match dir with
  | BLADERF_RX => BLADERF_CHANNEL_RX ch
  | BLADERF_TX => BLADERF_CHANNEL_TX ch
  end.

Definition _is_tx (ch : Z) : bool :=
  1 =? Z.land ch BLADERF_DIRECTION_MASK.

Definition channel2rfport (ch : Z) : Z := Z.shiftr ch 1.

(** The members [_chanmap] and [_enables]: [std::map]s from a channel
    to the index it serves, -1 for none, and to its enable flag. *)
Record channels : Type := Channels {
  _chanmap : gmap Z Z;
  _enables : gmap Z bool
}.

(** [_chanmap [ch]] read: a missing key is entered with the value 0. *)
Definition chanmap_at (ch : Z) (m : gmap Z Z) : Z * gmap Z Z :=
  match m !! ch with
  | Some v => (v, m)
  | None => (0, <[ch := 0]> m)
  end.

Definition set_channel_enable (ch : Z) (enable : bool) (s : channels)
    : channels :=
  Channels (_chanmap s) (<[ch := enable]> (_enables s)).

Definition get_channel_enable (ch : Z) (s : channels) : bool * channels :=
  match _enables s !! ch with
  | Some b => (b, s)
  | None => (false, Channels (_chanmap s) (<[ch := false]> (_enables s)))
  end.

Definition direction_is (direction : bladerf_direction) (ch : Z) : bool :=
  match direction with
  | BLADERF_TX => _is_tx ch
  | BLADERF_RX => negb (_is_tx ch)
  end.

(** The channels of [direction] that serve [chan]. *)
Definition serving (direction : bladerf_direction) (chan : Z)
    (m : gmap Z Z) : list Z :=
  (filter (fun i => i.2 = as_int chan /\ direction_is direction i.1 = true)
          (map_to_list m)).*1.

(** [chan2channel]: the loop runs through the map by increasing
    channel, so the first hit is the least channel that serves. *)
Definition chan2channel (direction : bladerf_direction) (chan : Z)
    (s : channels) : Z :=
  match serving direction chan (_chanmap s) with
  | [] => BLADERF_CHANNEL_INVALID
  | ch :: chs => foldr Z.min ch chs
  end.

(** No two channels of [direction] serve the same index; -1 is no
    index. *)
Definition one_channel_each (direction : bladerf_direction) (s : channels)
    : Prop :=
  forall c k1 k2,
    c <> -1 ->
    _chanmap s !! k1 = Some c -> _chanmap s !! k2 = Some c ->
    direction_is direction k1 = true -> direction_is direction k2 = true ->
    k1 = k2.

Section Antennas.
Context `{Boost}.

Definition channel2str (ch : Z) : string :=
  if ch =? BLADERF_CHANNEL_INVALID then "OFF"
  else (if _is_tx ch then "TX" else "RX") +:+ format_d (channel2rfport ch + 1).

Definition str2channel (ch : string) : outcome Z :=
  if (String.length ch <? 3)%nat then Ok BLADERF_CHANNEL_INVALID
  else
    let prefix := String.substring 0 2 ch in
    let numstr := String.substring 2 (String.length ch - 2) ch in
    match lexical_cast_unsigned_int numstr with
    | None => Throw "bad lexical cast"
    | Some n =>
        let numint := (Z.of_N n - 1) mod 2 ^ 32 in
        if String.eqb prefix "RX" then Ok (BLADERF_CHANNEL_RX numint)
        else if String.eqb prefix "TX" then Ok (BLADERF_CHANNEL_TX numint)
        else Ok BLADERF_CHANNEL_INVALID
    end.

(** [get_antennas]; [max_channels] is what [get_max_channels (dir)]
    answers: 1 in the BLADERF_COMPATIBILITY build, the driver's channel
    count otherwise. *)
Definition get_antennas (max_channels : N) (dir : bladerf_direction)
    : list string :=
  (fun i => channel2str (BLADERF_CHANNEL dir i)) <$> seqZ 0 (Z.of_N max_channels).

Definition is_antenna_valid (max_channels : N) (dir : bladerf_direction)
    (antenna : string) : bool :=
  bool_decide (antenna ∈ get_antennas max_channels dir).

Definition set_antenna (max_channels : N) (dir : bladerf_direction)
    (chan : Z) (antenna : string) (s : channels) : outcome (bool * channels) :=
  if negb (is_antenna_valid max_channels dir antenna) then
    Throw ("Invalid antenna: " +:+ antenna)
  else
    let old_channel := chan2channel dir chan s in
    letm new_channel := str2channel antenna in
    let '(old_chan, chanmap) := chanmap_at new_channel (_chanmap s) in
    let s := Channels chanmap (_enables s) in
    if negb (old_channel =? new_channel) || negb (old_chan =? as_int chan) then
      let s := if old_chan =? -1 then set_channel_enable old_channel false s
               else s in
      let s := Channels (<[old_channel := old_chan]> (_chanmap s))
                        (_enables s) in
      let s := Channels (<[new_channel := as_int chan]> (_chanmap s))
                        (_enables s) in
      Ok (true, set_channel_enable new_channel true s)
    else Ok (true, s).

End Antennas.

(** *** Corrections *)

Inductive bladerf_correction : Type :=
| BLADERF_CORR_LMS_DCOFF_I
| BLADERF_CORR_LMS_DCOFF_Q
| BLADERF_CORR_FPGA_PHASE
| BLADERF_CORR_FPGA_GAIN.

Class libbladeRF_correction (dev : Type) : Type := {
  bladerf_set_correction : dev -> Z -> bladerf_correction -> Z -> Z * dev
}.

(** Conversion of a floating value to [int16_t]. *)
Definition to_int16 (v : option Z) : outcome Z :=
  match v with
  | Some z => if (- 2 ^ 15 <=? z) && (z <? 2 ^ 15) then Ok z else Undefined
  | None => Undefined
  end.

Section Corrections.
Context {dev : Type} `{libbladeRF_correction dev}.

(** Two corrections set one after the other, the statuses or-ed. *)
Definition set_corrections (first second : bladerf_correction)
    (val_first val_second : Z) (ch : Z) (c : bladerf_common dev)
    : Z * bladerf_common dev :=
  let '(ret, d) := bladerf_set_correction (_dev c) ch first val_first in
  let '(ret', d) := bladerf_set_correction d ch second val_second in
  (Z.lor ret ret', with_dev d c).

(** [set_dc_offset]; the complex offset is given by its two parts and
    [DCOFF_SCALE] is the constant of bladerf_common.h. *)
Definition set_dc_offset (DCOFF_SCALE : float) (offset : float * float)
    (ch : Z) (c : bladerf_common dev) : outcome (Z * bladerf_common dev) :=
  letm val_i := to_int16 (trunc (offset.1 * DCOFF_SCALE)%float) in
  letm val_q := to_int16 (trunc (offset.2 * DCOFF_SCALE)%float) in
  Ok (set_corrections BLADERF_CORR_LMS_DCOFF_I BLADERF_CORR_LMS_DCOFF_Q
                      val_i val_q ch c).

(** [set_iq_balance], with [GAIN_SCALE] and [PHASE_SCALE] likewise. *)
Definition set_iq_balance (GAIN_SCALE PHASE_SCALE : float)
    (balance : float * float) (ch : Z) (c : bladerf_common dev)
    : outcome (Z * bladerf_common dev) :=
  letm val_gain := to_int16 (trunc (balance.1 * GAIN_SCALE)%float) in
  letm val_phase := to_int16 (trunc (balance.2 * PHASE_SCALE)%float) in
  Ok (set_corrections BLADERF_CORR_FPGA_GAIN BLADERF_CORR_FPGA_PHASE
                      val_gain val_phase ch c).

End Corrections.

(** *** Stand-ins for the libraries *)

(** A decimal reader and printer in the place of [boost::lexical_cast]
    and [boost::format]. *)
Definition digit (a : Ascii.ascii) : option N :=
  let n := Ascii.N_of_ascii a in
  if (48 <=? n)%N && (n <=? 57)%N then Some (n - 48)%N else None.

Fixpoint digits (acc : N) (s : string) : option N :=
  match s with
  | EmptyString => Some acc
  | String a s => d ← digit a; digits (10 * acc + d)%N s
  end.

Definition sim_cast (bits : N) (s : string) : option N :=
  match s with
  | EmptyString => None
  | _ => n ← digits 0 s; if (n <? 2 ^ bits)%N then Some n else None
  end.

#[global] Instance sim_boost : Boost := {
  lexical_cast_size_t := sim_cast 64;
  lexical_cast_unsigned_int := sim_cast 32;
  format_d := pretty
}.

(** A tamer that keeps the mode it is given, and refuses the modes
    outside the three it knows. *)
#[global] Instance sim_clock : libbladeRF_clock Z := {
  bladerf_set_vctcxo_tamer_mode d mode :=
    if (0 <=? mode) && (mode <=? 2) then (0, mode) else (-3, d);
  bladerf_get_vctcxo_tamer_mode d := (0, d)
}.

(** A board that counts the corrections it is given and accepts the
    values of twelve bits. *)
#[global] Instance sim_correction : libbladeRF_correction nat := {
  bladerf_set_correction d ch corr value :=
    (if (- 2048 <=? value) && (value <? 2048) then 0 else -3, S d)
}.

End BladeRF.

(* ===================================================================== *)
(** * Part II: properties                                                 *)
(* ===================================================================== *)

(** ** The conversions, on some values *)

Example trunc_discards_fraction :
  trunc 768000.5 = Some 768000 /\ trunc (-2.75) = Some (-2) /\
  trunc (-0.5) = Some 0 /\ trunc infinity = None.
Proof. repeat split; vm_compute; reflexivity. Qed.

Example round_halves_away_from_zero :
  round 2.5 = Some 3 /\ round (-2.5) = Some (-3) /\
  round 7.5 = Some 8 /\ round 0.25 = Some 0 /\ round nan = None.
Proof. repeat split; vm_compute; reflexivity. Qed.

Example of_int_is_exact_on_small_integers :
  of_int 8 = 8%float /\ of_int (-48) = (-48)%float /\
  of_int 768000 = 768000%float /\ of_int 0 = 0%float.
Proof. repeat split; vm_compute; reflexivity. Qed.

(** ** The streaming bridge *)

Section BridgeProperties.
Import Bridge.

Ltac unfold_step :=
  unfold step, work_step, callback_step, stop_step, start, acquire,
    notify_stream, notify_done, return_work, set_buff, set_streaming,
    set_mutex, set_consumer, set_callback, set_stopper, emit in *.

Ltac step_cases :=
  unfold_step; simpl in *;
  repeat (case_match; simplify_eq/=); simplify_eq/=; try done.

(** No statement of the bridge writes the block size or the counter. *)
Lemma step_constants a s s' :
  step a s = Some s' ->
  _airspyhf_output_size s' = _airspyhf_output_size s /\
  _dropped_samples s' = _dropped_samples s.
Proof. intros Hs. destruct s, a; step_cases. Qed.

Lemma run_constants acts : forall s s',
  run acts s = Some s' ->
  _airspyhf_output_size s' = _airspyhf_output_size s /\
  _dropped_samples s' = _dropped_samples s.
Proof.
  induction acts as [|a acts IH]; intros s s' Hr; simpl in Hr.
  - by simplify_eq.
  - destruct (step a s) as [s1|] eqn:Hs; simpl in Hr; [|done].
    apply step_constants in Hs as [H1 H2].
    apply IH in Hr as [-> ->]. done.
Qed.

Lemma lock_discipline_step a s s' :
  lock_discipline s -> step a s = Some s' -> lock_discipline s'.
Proof.
  unfold lock_discipline. intros (Hw & Hk & Hp) Hs.
  destruct s as [N d b st m c k p tr]; simpl in *.
  destruct a; step_cases; simpl in *; intuition (try done; try congruence).
Qed.

Lemma slot_audited_step a s s' :
  slot_audited s -> step a s = Some s' -> slot_audited s'.
Proof.
  unfold slot_audited. intros (au & Hr & Ho & Hw) Hs.
  destruct s as [N d b st m c k p tr], au as [o w]; simpl in *.
  destruct a; step_cases; simpl in *; rewrite ?Hr; simpl;
    try (eexists; split; [reflexivity|]; simpl; split; [done|];
         intros Hx; try done; destruct (Hw Hx); by simplify_eq).
  (* the memcpy: the buffer on offer has not been written *)
  destruct w; [by destruct (Hw eq_refl)|].
  rewrite bool_decide_true by done. rewrite Z.eqb_refl. simpl.
  eexists; split; [reflexivity|]. simpl. eauto.
Qed.

Lemma constructed_ok n d :
  lock_discipline (constructed n d) /\ slot_audited (constructed n d).
Proof.
  split.
  - unfold lock_discipline; simpl; intuition done.
  - exists (Audit None false). simpl. intuition done.
Qed.

Lemma reachable_ok s :
  reachable s -> lock_discipline s /\ slot_audited s.
Proof.
  intros (n & d & acts & Hr).
  revert Hr. generalize (constructed_ok n d). generalize (constructed n d).
  induction acts as [|a acts IH]; intros s0 [Hl Ha] Hr; simpl in Hr.
  - by simplify_eq.
  - destruct (step a s0) as [s1|] eqn:Hs; simpl in Hr; [|done].
    apply (IH s1); [|done].
    split; [by eapply lock_discipline_step | by eapply slot_audited_step].
Qed.

Lemma waiting_reachable : reachable waiting.
Proof. exists 1024, 0, offer_and_wait. vm_compute. reflexivity. Defined.

Lemma mid_copy_reachable : reachable mid_copy.
Proof.
  exists 1024, 0,
    (offer_and_wait ++
     [Call_callback (Transfer 99%nat 5); Step_callback; Step_callback;
      Step_callback; Step_callback]).
  vm_compute. reflexivity.
Defined.

(** C3. Whatever the order in which the scheduler, the driver, the
    caller of [stop] and the device take their steps: the lock is held
    by the one thread that stands at a locked statement; every memcpy
    of the history went into the buffer then in [_stream_buff], carried
    [_airspyhf_output_size] samples and was the only one into that
    offer, so that an offered buffer is written once, in full, or not
    at all; and a buffer that is written and still in the slot is
    about to be cleared: the callback holds the lock and its next step
    empties the slot, signals [_callback_done_cond] and wakes the
    consumer if it waits. *)
Theorem at_most_one_slot s :
  reachable s ->
  lock_discipline s /\
  exists a,
    replay (_airspyhf_output_size s) (trace s) = Some a /\
    offered a = _stream_buff s /\
    (written a = true ->
     exists s',
       is_Some (_stream_buff s) /\
       callback s = K_clear /\ _stream_mutex s = Some T_callback /\
       step Step_callback s = Some s' /\
       _stream_buff s' = None /\
       trace s' = Notify_done :: Clear :: trace s /\
       (consumer s = W_wait -> consumer s' = W_relock)).
Proof.
  intros Hr. destruct (reachable_ok s Hr) as [Hl (a & Hrep & Ho & Hw)].
  split; [done|]. exists a. split; [done|]. split; [done|].
  intros Hx. destruct (Hw Hx) as [Hk Hsome].
  destruct Hl as (_ & Hlk & _).
  destruct s as [N d b st m c k p tr]; simpl in *. subst k.
  assert (Hm : m = Some T_callback) by (by apply Hlk). rewrite <- Ho.
  destruct c; eexists; (split; [done|]); (split; [done|]);
    (split; [done|]); (split; [reflexivity|]); done.
Qed.

Lemma at_most_one_slot_witness :
  reachable mid_copy /\
  lock_discipline mid_copy /\
  exists a, replay 1024 (trace mid_copy) = Some a /\ written a = true.
Proof.
  split; [exact mid_copy_reachable|].
  destruct (at_most_one_slot mid_copy mid_copy_reachable)
    as [Hl (a & Ha & _)].
  split; [exact Hl|]. exists a. split; [exact Ha|].
  vm_compute in Ha. by simplify_eq.
Defined.

(** C4. [work] called for fewer items than one block while the device
    streams: with the lock free, its first two steps take the lock and
    return 0. Nothing else has changed when it returns: no buffer was
    stored, nothing copied or signalled, no wait entered, and the lock
    is free again. The count is a number of items, [0 <= n]. *)
Theorem undersized_request_returns_zero s n out0 :
  consumer s = W_lock n out0 ->
  _stream_mutex s = None ->
  is_streaming s = true ->
  0 <= n < _airspyhf_output_size s ->
  exists s',
    run [Step_work; Step_work] s = Some s' /\
    s' = set_consumer (W_returned 0) s /\
    _stream_buff s' = _stream_buff s /\
    trace s' = trace s /\
    _stream_mutex s' = None.
Proof.
  intros Hc Hm Hst [Hn0 Hn].
  destruct s as [N d b st m c k p tr]; simpl in *; subst.
  unfold work_step, acquire, return_work; simpl.
  assert (Hlt : (to_uint32 n <? N) = true).
  { apply Z.ltb_lt. unfold to_uint32.
    pose proof (Z.mod_le n (2 ^ 32)). lia. }
  rewrite Hlt. eexists; split; [reflexivity|]. done.
Qed.

Lemma undersized_request_returns_zero_witness :
  exists s',
    run [Step_work; Step_work]
        (State 1024 0 None true None (W_lock 512 7%nat) K_idle S_idle
               [Info_start]) = Some s' /\
    consumer s' = W_returned 0 /\ _stream_buff s' = None /\
    trace s' = [Info_start].
Proof.
  destruct (undersized_request_returns_zero
              (State 1024 0 None true None (W_lock 512 7%nat) K_idle S_idle
                     [Info_start]) 512 7%nat)
    as (s' & Hrun & -> & _);
    [reflexivity | reflexivity | reflexivity | simpl; lia |].
  eexists. split; [exact Hrun|]. repeat split.
Defined.

Lemma notify_done_spec s :
  trace (notify_done s) = Notify_done :: trace s /\
  _stream_buff (notify_done s) = _stream_buff s /\
  _dropped_samples (notify_done s) = _dropped_samples s /\
  (consumer s = W_wait -> consumer (notify_done s) = W_relock).
Proof. unfold notify_done. destruct s as [N d b st m c k p tr], c; done. Qed.

(** C1, as claimed, fails: a delivery whose transfer reports 5 lost
    samples runs to its end, warns and copies, and [_dropped_samples] is
    what it was, not 5 more. *)
Lemma lossy_delivery_leaves_counter :
  exists s s',
    run offer_and_wait (constructed 1024 0) = Some s /\
    run [Call_callback (Transfer 99%nat 5); Step_callback; Step_callback;
         Step_callback; Step_callback; Step_callback] s = Some s' /\
    callback s' = K_returned 0 /\
    trace s' = Notify_done :: Clear :: Memcpy 7%nat 99%nat 1024
               :: Warn_dropped 5 :: trace s /\
    _dropped_samples s' <> _dropped_samples s + 5.
Proof.
  eexists. eexists. split; [vm_compute; reflexivity|].
  split; [vm_compute; reflexivity|]. simpl. repeat split. lia.
Qed.

(** C1, amended. After any history, a delivery that finds a buffer in
    the slot and the lock free runs to its end in five steps: it logs
    "dropped_samples: K" when the transfer reports K <> 0 lost samples
    and nothing otherwise, copies [_airspyhf_output_size] samples into
    the buffer either way, clears the slot, signals
    [_callback_done_cond], waking the consumer if it waits, and returns
    0. [_dropped_samples] is still what it was before the history: no
    statement of the bridge writes it. *)
Theorem lossy_delivery_warns_and_copies acts s0 s t b :
  run acts s0 = Some s ->
  callback s = K_lock t ->
  _stream_mutex s = None ->
  _stream_buff s = Some b ->
  exists s',
    run [Step_callback; Step_callback; Step_callback; Step_callback;
         Step_callback] s = Some s' /\
    callback s' = K_returned 0 /\
    _dropped_samples s' = _dropped_samples s0 /\
    _stream_buff s' = None /\
    (consumer s = W_wait -> consumer s' = W_relock) /\
    trace s' =
      Notify_done :: Clear
      :: Memcpy b (samples t) (_airspyhf_output_size s)
      :: (if dropped_samples t =? 0 then []
          else [Warn_dropped (dropped_samples t)]) ++ trace s.
Proof.
  intros Hrun Hk Hm Hb. apply run_constants in Hrun as [_ Hd].
  destruct s as [N d b' st m c k p tr]; simpl in *; subst k m b'.
  set (warned := if dropped_samples t =? 0 then tr
                 else Warn_dropped (dropped_samples t) :: tr).
  set (copied := State N d (Some b) st (Some T_callback) c K_clear p
                   (Memcpy b (samples t) N :: warned)).
  exists (set_mutex None (set_callback (K_returned 0)
            (notify_done (emit Clear (set_buff None copied))))).
  destruct (notify_done_spec (emit Clear (set_buff None copied)))
    as (Htr & Hbuf & Hdr & Hwake).
  split; [|split; [done|]; split; [|split; [|split]]].
  - subst copied warned. unfold callback_step, acquire. simpl.
    by destruct (dropped_samples t =? 0).
  - simpl. by rewrite Hdr.
  - simpl. by rewrite Hbuf.
  - exact Hwake.
  - simpl. rewrite Htr. subst copied warned. simpl.
    by destruct (dropped_samples t =? 0).
Qed.

Lemma lossy_delivery_warns_and_copies_witness :
  exists s',
    run [Step_callback; Step_callback; Step_callback; Step_callback;
         Step_callback] (set_callback (K_lock (Transfer 99%nat 5)) waiting)
      = Some s' /\
    _dropped_samples s' = 0 /\
    trace s' = Notify_done :: Clear :: Memcpy 7%nat 99%nat 1024
               :: Warn_dropped 5 :: trace waiting.
Proof.
  destruct (lossy_delivery_warns_and_copies
              (offer_and_wait ++ [Call_callback (Transfer 99%nat 5)])
              (constructed 1024 0)
              (set_callback (K_lock (Transfer 99%nat 5)) waiting)
              (Transfer 99%nat 5) 7%nat)
    as (s' & Hrun & _ & Hd & _ & _ & Htr);
    [vm_compute; reflexivity | reflexivity | reflexivity | reflexivity |].
  exists s'. split; [exact Hrun|]. split; [exact Hd | exact Htr].
Defined.

(** C2, at the failing input. The consumer is parked in the wait of
    [work] with its buffer in the slot, and [stop] is called. [stop]
    returns true and the device no longer streams, so that the
    condition of the consumer's wait loop is false; but the buffer is
    still in the slot, nothing has been signalled, the log line apart
    the history is as before, and the consumer is still parked in its
    wait: it has no step of its own to take. *)
Lemma stop_leaves_slot_and_waiter :
  exists s',
    run offer_and_wait (constructed 1024 0) = Some waiting /\
    run [Call_stop; Step_stop 0; Step_stop 0] waiting = Some s' /\
    stopper s' = S_returned true /\
    is_streaming s' = false /\
    _stream_buff s' = Some 7%nat /\
    consumer s' = W_wait /\
    step Step_work s' = None /\
    trace s' = Info_stop :: trace waiting.
Proof.
  eexists. split; [vm_compute; reflexivity|].
  split; [vm_compute; reflexivity|]. repeat split.
Qed.

(** What [stop] does. Entered at its lock with the lock free, its
    two steps take the lock, have the driver stop the device, log and
    return true, releasing the lock. Only the streaming flag, the log
    and the caller's own position differ afterwards. Once the device
    does not stream, a thread that tests the condition of its wait loop
    leaves the loop: [work] returns and the callback goes on to its
    copy. *)
Theorem stop_disarms_only s ret s' :
  stopper s = S_lock ->
  _stream_mutex s = None ->
  run [Step_stop ret; Step_stop ret] s = Some s' ->
  ret = AIRSPYHF_SUCCESS /\
  s' = emit Info_stop (set_stopper (S_returned true) (set_streaming false s)) /\
  _stream_buff s' = _stream_buff s /\
  consumer s' = consumer s /\
  callback s' = callback s /\
  is_streaming s' = false /\
  (is_streaming s = false ->
   s' = emit Info_stop (set_stopper (S_returned true) s)) /\
  (forall u, is_streaming u = false ->
     (consumer u = W_loop ->
      exists u' r, step Step_work u = Some u' /\ consumer u' = W_returned r) /\
     (forall t, callback u = K_loop t ->
      exists u', step Step_callback u = Some u' /\ callback u' = K_warn t)).
Proof.
  intros Hp Hm Hrun.
  destruct s as [N d b st m c k p tr]; simpl in *; subst.
  unfold stop_step, acquire in Hrun; simpl in Hrun.
  unfold AIRSPYHF_SUCCESS in *.
  destruct (ret =? 0) eqn:Hret; simpl in Hrun; [|done].
  apply Z.eqb_eq in Hret. simplify_eq.
  repeat (split; [done|]). split.
  - simpl. by intros ->.
  - intros [N' d' b' st' m' c' k' p' tr'] Hst; simpl in *; subst. split.
    + intros ->. unfold work_step; simpl.
      rewrite andb_false_r. eauto.
    + intros t ->. unfold callback_step; simpl.
      rewrite andb_false_r. eauto.
Qed.

Lemma stop_disarms_only_witness :
  exists s',
    run [Step_stop 0; Step_stop 0] (set_stopper S_lock waiting) = Some s' /\
    _stream_buff s' = Some 7%nat /\ consumer s' = W_wait /\
    is_streaming s' = false.
Proof.
  eexists. split; [vm_compute; reflexivity|].
  destruct (stop_disarms_only (set_stopper S_lock waiting) 0 _
              eq_refl eq_refl eq_refl)
    as (_ & _ & Hb & Hc & _ & Hst & _).
  split; [exact Hb|]. split; [exact Hc | exact Hst].
Defined.

(** A delivery after the fault wakes the consumer as well, with the
    block copied; the value returned is the block size again. *)
Example fault_then_delivery_returns_block :
  exists s',
    run [Hw_fault; Call_callback (Transfer 99%nat 0); Step_callback;
         Step_callback; Step_callback; Step_callback; Step_callback;
         Step_work; Step_work] waiting = Some s' /\
    consumer s' = W_returned 1024 /\
    trace s' = Notify_done :: Clear :: Memcpy 7%nat 99%nat 1024
               :: trace waiting.
Proof. eexists. split; [vm_compute; reflexivity|]. done. Qed.

(** Past its early returns, a call of [work] has one value left to
    return, the block size, however its wait ends. *)
Lemma committed_step n a s s' :
  _airspyhf_output_size s = n ->
  committed (consumer s) = true \/ consumer s = W_returned (to_int n) ->
  is_call_work a = false ->
  step a s = Some s' ->
  committed (consumer s') = true \/ consumer s' = W_returned (to_int n).
Proof.
  intros Hn Hc Ha Hs. destruct s as [N d b st m c k p tr]; simpl in *.
  destruct a; try done; step_cases; simpl in *;
    destruct Hc; try done; eauto.
Qed.

Lemma committed_work_returns_block_size acts : forall s s',
  committed (consumer s) = true ->
  forallb (fun a => negb (is_call_work a)) acts = true ->
  run acts s = Some s' ->
  committed (consumer s') = true \/
  consumer s' = W_returned (to_int (_airspyhf_output_size s)).
Proof.
  intros s s' Hc. remember (_airspyhf_output_size s) as n eqn:Hn.
  assert (Hinv : committed (consumer s) = true \/
                 consumer s = W_returned (to_int n)) by eauto.
  clear Hc. symmetry in Hn. revert s Hn Hinv.
  induction acts as [|a acts IH]; intros s Hn Hinv Hall Hr; simpl in *.
  - by simplify_eq.
  - apply andb_true_iff in Hall as [Ha Hall]. apply negb_true_iff in Ha.
    destruct (step a s) as [s1|] eqn:Hs; simpl in Hr; [|done].
    apply (IH s1); try done.
    + apply step_constants in Hs as [-> _]. done.
    + by eapply committed_step.
Qed.

(** C5, at the failing input. The consumer waits for the callback with
    its buffer in the slot; the device leaves the streaming state; the
    consumer is woken without a delivery. [work] returns the block
    size, 1024, which is not [WORK_DONE], for a buffer into which
    nothing has been copied. *)
Theorem fault_while_waiting_returns_block :
  exists s',
    reachable waiting /\
    run [Hw_fault; Wake_work; Step_work; Step_work] waiting = Some s' /\
    consumer s' = W_returned 1024 /\
    1024 <> WORK_DONE /\
    trace s' = trace waiting /\
    (forall dst src n, Memcpy dst src n ∉ trace s').
Proof.
  eexists. split; [exact waiting_reachable|].
  split; [vm_compute; reflexivity|]. simpl.
  repeat split; try done.
  intros dst src n Hin. unfold waiting in Hin; simpl in Hin.
  repeat (apply elem_of_cons in Hin as [?|Hin]; [done|]).
  by apply elem_of_nil in Hin.
Qed.

End BridgeProperties.

(** ** The parameters of the AirspyHF block *)

Section AirspyHFProperties.
Import AirspyHF.

Lemma to_unsigned_ok bits r :
  0 <= r < 2 ^ bits -> to_unsigned bits (Some r) = Ok r.
Proof.
  intros [H0 H1]. unfold to_unsigned.
  apply Z.leb_le in H0. apply Z.ltb_lt in H1. by rewrite H0, H1.
Qed.

Lemma att_steps_fixed : forallb quantised_is_request att_steps = true.
Proof. vm_compute. reflexivity. Qed.

(** What [set_gain] does for "ATT" once the request converts to [att]. *)
Lemma set_gain_att ret gain s att :
  _airspyhf_att_db_to_value gain = Ok att ->
  set_gain ret gain "ATT" s =
    if _att s =? att then Ok (_airspyhf_att_value_to_db (_att s), s)
    else if ret =? AIRSPYHF_SUCCESS then
      Ok (_airspyhf_att_value_to_db att,
          AIRSPYHF_INFO "set_gain" [SStr "att: "; SInt att]
            (with_att att (call (airspyhf_set_hf_att att) s)))
    else AssertFail.
Proof.
  intros Hv. unfold set_gain. simpl. rewrite Hv. simpl.
  destruct (_att s =? att); simpl; [done|].
  destruct (ret =? AIRSPYHF_SUCCESS); done.
Qed.

(** C10, as claimed, fails: for a request of 6 dB the value to return
    would be [-6 * round (-1)], 6 dB, but [round (-1)] has no
    [uint8_t]: the conversion in [_airspyhf_att_db_to_value] is
    undefined, and no [uint8_t] at all converts back to 6 dB. *)
Lemma att_gain_above_range :
  round (- 6 / 6)%float = Some (-1) /\
  set_gain AIRSPYHF_SUCCESS 6 "ATT" constructed = Undefined /\
  forallb (fun v => negb (_airspyhf_att_value_to_db v =? 6)%float)
          (seqZ 0 256) = true.
Proof. repeat split; vm_compute; reflexivity. Qed.

(** C10, amended. When the quantised request [round (-gain / 6)] is a
    [uint8_t] and the driver accepts it, [set_gain (gain, "ATT")]
    returns that value times -6.0 and leaves it in [_att]; a following
    [get_gain ("ATT")] returns the same and changes nothing. On each
    multiple of 6 in [-48, 0] the value returned by both compares equal
    to the request. *)
Theorem att_gain_quantised ret gain s r :
  ret = AIRSPYHF_SUCCESS ->
  round (- gain / 6)%float = Some r ->
  0 <= r < 256 ->
  exists s',
    set_gain ret gain "ATT" s = Ok ((of_int r * -6)%float, s') /\
    _att s' = r /\
    get_gain "ATT" s' = ((of_int r * -6)%float, s') /\
    (gain ∈ att_steps -> ((of_int r * -6) =? gain)%float = true).
Proof.
  intros -> Hr Hrange.
  assert (Hv : _airspyhf_att_db_to_value gain = Ok r).
  { unfold _airspyhf_att_db_to_value. rewrite Hr.
    by apply to_unsigned_ok. }
  rewrite (set_gain_att _ _ _ _ Hv). simpl.
  assert (Hfix : gain ∈ att_steps -> ((of_int r * -6) =? gain)%float = true).
  { intros Hin. pose proof att_steps_fixed as Hall.
    rewrite forallb_forall in Hall. apply list_elem_of_In in Hin.
    specialize (Hall gain Hin). unfold quantised_is_request in Hall.
    by rewrite Hr in Hall. }
  destruct (_att s =? r) eqn:Heq.
  - apply Z.eqb_eq in Heq. exists s. rewrite Heq.
    unfold get_gain, _airspyhf_att_value_to_db. simpl. by rewrite Heq.
  - eexists. split; [reflexivity|]. unfold get_gain. simpl. done.
Qed.

Lemma att_gain_quantised_witness :
  exists s',
    set_gain 0 (-45) "ATT" constructed = Ok ((-48)%float, s') /\
    _att s' = 8 /\ get_gain "ATT" s' = ((-48)%float, s').
Proof.
  destruct (att_gain_quantised 0 (-45) constructed 8)
    as (s' & Hset & Hatt & Hget & _);
    [reflexivity | vm_compute; reflexivity | lia |].
  exists s'. split; [exact Hset|]. split; [exact Hatt | exact Hget].
Defined.

(** C9, as claimed, fails: [set_sample_rate] asked for the rate it has
    just cached programs the device again. *)
Lemma set_sample_rate_repeats_transaction :
  exists s s',
    set_sample_rate 0 0 768000 constructed = Ok (768000%float, s) /\
    get_sample_rate s = 768000%float /\
    set_sample_rate 0 0 768000 s = Ok (768000%float, s') /\
    hw s' = hw s ++ [airspyhf_set_samplerate 768000; airspyhf_is_low_if] /\
    s' <> s.
Proof.
  eexists. eexists. split; [vm_compute; reflexivity|].
  split; [reflexivity|]. split; [vm_compute; reflexivity|].
  split; [reflexivity|]. discriminate.
Qed.

(** C9, amended. The gain setters of the AirspyHF block do nothing for
    a value that is cached: [set_gain] for "ATT" and for "LNA" when the
    quantised request is the value in [_att], in [_lna], and
    [set_gain_mode] when the flag is the one in [_agc], return the
    cached value with no driver call and no member changed, whatever
    the driver would have answered. [set_sample_rate] and
    [set_center_freq] call the driver on every request. *)
Theorem cached_gain_requests_are_noops ret low s :
  (forall gain, _airspyhf_att_db_to_value gain = Ok (_att s) ->
     set_gain ret gain "ATT" s = Ok (_airspyhf_att_value_to_db (_att s), s)) /\
  (forall gain, _airspyhf_lna_db_to_flag gain = _lna s ->
     set_gain ret gain "LNA" s = Ok (_airspyhf_lna_flag_to_db (_lna s), s)) /\
  set_gain_mode ret (_agc s) s = Ok (_agc s, s) /\
  (forall rate r s', set_sample_rate ret low rate s = Ok (r, s') ->
     exists v rest, hw s' = hw s ++ airspyhf_set_samplerate v :: rest) /\
  (forall freq r s', set_center_freq ret freq s = Ok (r, s') ->
     hw s' = hw s ++ [airspyhf_set_freq freq]).
Proof.
  split; [|split; [|split; [|split]]].
  - intros gain Hv. rewrite (set_gain_att _ _ _ _ Hv). by rewrite Z.eqb_refl.
  - intros gain Hv. unfold set_gain. simpl. rewrite Hv, Z.eqb_refl.
    reflexivity.
  - unfold set_gain_mode. rewrite eqb_reflx. reflexivity.
  - intros rate r s'. unfold set_sample_rate.
    destruct (to_unsigned 32 (trunc rate)) as [v| | |]; simpl; try done.
    destruct (ret =? AIRSPYHF_SUCCESS); intros ?; simplify_eq; simpl;
      exists v; eexists; rewrite <- ?app_assoc; reflexivity.
  - intros freq r s'. unfold set_center_freq.
    destruct (ret =? AIRSPYHF_SUCCESS); intros ?; simplify_eq; done.
Qed.

Lemma cached_gain_requests_are_noops_witness :
  set_gain 0 (-1) "ATT" constructed = Ok ((-0)%float, constructed) /\
  set_gain 0 4 "LNA" constructed = Ok (6%float, constructed) /\
  set_gain_mode 0 true constructed = Ok (true, constructed).
Proof.
  destruct (cached_gain_requests_are_noops 0 0 constructed)
    as (Hatt & Hlna & Hagc & _).
  split; [exact (Hatt (-1)%float eq_refl)|].
  split; [exact (Hlna 4%float eq_refl) | exact Hagc].
Defined.

(** C7, as claimed, fails: the AirspyHF block asked for 768000.5 Hz
    programs 768000 Hz and reports 768000.5 Hz, the request, on return
    and at every read since. *)
Lemma fractional_rate_is_reported_raw :
  exists s',
    set_sample_rate 0 0 768000.5 constructed = Ok (768000.5%float, s') /\
    hw s' = [airspyhf_set_samplerate 768000; airspyhf_is_low_if] /\
    get_sample_rate s' = 768000.5%float /\
    (768000.5 =? of_int 768000)%float = false.
Proof.
  eexists. split; [vm_compute; reflexivity|]. repeat split.
Qed.

End AirspyHFProperties.

(** ** The parameters of both devices *)

Section ParameterProperties.
Context {dev : Type} `{BladeRF.libbladeRF dev}.

Lemma bladerf_get_gain_dev compat name ch (c : BladeRF.bladerf_common dev) :
  BladeRF._dev (BladeRF.get_gain compat name ch c).2 = BladeRF._dev c.
Proof.
  unfold BladeRF.get_gain.
  repeat (case_match; simplify_eq/=); done.
Qed.

Lemma bladerf_get_gain_value compat name ch
    (c c' : BladeRF.bladerf_common dev) :
  BladeRF._dev c' = BladeRF._dev c ->
  (BladeRF.get_gain compat name ch c').1
  = (BladeRF.get_gain compat name ch c).1.
Proof.
  intros Hd. unfold BladeRF.get_gain. rewrite Hd.
  repeat (case_match; simplify_eq/=); done.
Qed.

(** C7, amended. bladeRF: [set_sample_rate] returns the rate the driver
    reports as programmed, [actual.integer + actual.num / actual.den],
    and [get_sample_rate] returns that same value as long as the driver
    reports that rate. AirspyHF: [set_sample_rate (rate)] passes
    [(uint32_t) rate] to the driver; accepted, it caches and returns
    [rate] itself; refused, it returns the rate cached before; and
    [get_sample_rate], which changes nothing, returns what
    [set_sample_rate] returned. *)
Theorem sample_rate_read_back :
  (forall rate ch (c : BladeRF.bladerf_common dev) r c',
     BladeRF.set_sample_rate rate ch c = Ok (r, c') ->
     exists requested actual,
       BladeRF.bladerf_set_rational_sample_rate (BladeRF._dev c) ch requested
         = (0, actual, BladeRF._dev c') /\
       r = BladeRF.rate_to_double actual /\
       (BladeRF.bladerf_get_rational_sample_rate (BladeRF._dev c') ch
          = (0, actual) ->
        BladeRF.get_sample_rate ch c' = Ok r)) /\
  (forall ret low rate s r s',
     AirspyHF.set_sample_rate ret low rate s = Ok (r, s') ->
     AirspyHF.get_sample_rate s' = r /\
     exists v,
       to_unsigned 32 (trunc rate) = Ok v /\
       if ret =? AirspyHF.AIRSPYHF_SUCCESS then
         r = rate /\
         AirspyHF.hw s' = AirspyHF.hw s ++
           [AirspyHF.airspyhf_set_samplerate v; AirspyHF.airspyhf_is_low_if]
       else
         r = AirspyHF._sample_rate s /\
         AirspyHF.hw s' =
           AirspyHF.hw s ++ [AirspyHF.airspyhf_set_samplerate v]).
Proof.
  split.
  - intros rate ch c r c'. unfold BladeRF.set_sample_rate.
    destruct (to_unsigned 32 (trunc rate)) as [i| | |]; simpl; try done.
    destruct (to_unsigned 64 _) as [n| | |]; simpl; try done.
    destruct (BladeRF.bladerf_set_rational_sample_rate _ _ _)
      as [[status actual] d] eqn:Hset.
    destruct (status =? 0) eqn:Hst; simpl; intros ?; simplify_eq.
    apply Z.eqb_eq in Hst as ->.
    eexists _, actual. split; [exact Hset|]. split; [done|].
    simpl. intros Hget. unfold BladeRF.get_sample_rate. simpl.
    by rewrite Hget.
  - intros ret low rate s r s'. unfold AirspyHF.set_sample_rate.
    destruct (to_unsigned 32 (trunc rate)) as [v| | |]; simpl; try done.
    destruct (ret =? AirspyHF.AIRSPYHF_SUCCESS); intros ?; simplify_eq;
      (split; [done|]); exists v; simpl; rewrite <- ?app_assoc; done.
Qed.

End ParameterProperties.

Lemma sample_rate_read_back_witness :
  exists c',
    BladeRF.set_sample_rate 2000000.25 0 BladeRF.sim_board
      = Ok (2000000%float, c') /\
    BladeRF.get_sample_rate 0 c' = Ok 2000000%float.
Proof.
  destruct (@sample_rate_read_back BladeRF.sim_device BladeRF.sim_libbladeRF)
    as [Hb _].
  eexists. split; [vm_compute; reflexivity|].
  destruct (Hb 2000000.25%float 0 BladeRF.sim_board _ _ eq_refl)
    as (requested & actual & Hset & Hr & Hget).
  apply Hget. cbn in Hset. injection Hset as Hactual Hint.
  subst actual. cbn. by rewrite Hint.
Defined.

(** ** Unknown gain stages *)

Section GainStageProperties.
Context {dev : Type} `{BladeRF.libbladeRF dev}.

(** C8, amended. AirspyHF, any name but "ATT" and "LNA": [set_gain]
    logs one warning that names the stage, makes no driver call,
    changes no member and returns 0.0, which [get_gain] returns for
    that name as well. bladeRF built with BLADERF_COMPATIBILITY, any
    name but "LNA", "VGA1" and "VGA2": [set_gain] asks nothing of the
    device, logs its warning and that of [get_gain], and returns 0.0.
    bladeRF otherwise: a name other than the system gain is handed to
    the driver with the gain as an [int], and the answer decides. On
    [BLADERF_ERR_UNSUPPORTED] [set_gain] logs its warning first, throws
    nothing, and returns what the driver's query then leaves for that
    stage; on 0 it returns that value with no warning of its own; on
    any other status it throws. The device is as the driver's call has
    left it. *)
Theorem gain_stage_local_when_unsupported :
  (forall ret gain name s,
     name <> "ATT" -> name <> "LNA" ->
     exists s',
       AirspyHF.set_gain ret gain name s = Ok (0%float, s') /\
       AirspyHF.out s' =
         AirspyHF.out s ++
         [Message WARNING "set_gain" [SStr "unknown gain: "; SStr name]] /\
       AirspyHF.hw s' = AirspyHF.hw s /\
       AirspyHF._att s' = AirspyHF._att s /\
       AirspyHF._lna s' = AirspyHF._lna s /\
       AirspyHF._agc s' = AirspyHF._agc s /\
       AirspyHF._sample_rate s' = AirspyHF._sample_rate s /\
       AirspyHF._center_freq s' = AirspyHF._center_freq s /\
       (AirspyHF.get_gain name s').1 = 0%float) /\
  (forall gain name ch (c : BladeRF.bladerf_common dev),
     name <> "LNA" -> name <> "VGA1" -> name <> "VGA2" ->
     BladeRF.set_gain true gain name ch c =
       Ok (0%float,
           BladeRF.Common (BladeRF._dev c)
             (BladeRF.out c ++
              [Message WARNING "set_gain"
                 [SStr "Gain stage "; SStr name;
                  SStr " not supported by device"];
               Message WARNING "get_gain"
                 [SStr "Could not get gain for stage "; SStr name;
                  SInt BladeRF.BLADERF_ERR_UNSUPPORTED]]))) /\
  (forall gain name ch (c : BladeRF.bladerf_common dev) g status d,
     name <> BladeRF.SYSTEM_GAIN_NAME ->
     to_int32 (trunc gain) = Ok g ->
     BladeRF.bladerf_set_gain_stage (BladeRF._dev c) ch name g
       = (status, d) ->
     (status = BladeRF.BLADERF_ERR_UNSUPPORTED ->
      exists c' more,
        BladeRF.set_gain false gain name ch c =
          Ok (of_int (BladeRF.bladerf_get_gain_stage d ch name).2, c') /\
        BladeRF._dev c' = d /\
        BladeRF.out c' =
          BladeRF.out c ++
          Message WARNING "set_gain"
            [SStr "Gain stage "; SStr name; SStr " not supported by device"]
          :: more) /\
     (status = 0 ->
      BladeRF.set_gain false gain name ch c =
        Ok (BladeRF.get_gain false name ch (BladeRF.with_dev d c))) /\
     (status <> 0 -> status <> BladeRF.BLADERF_ERR_UNSUPPORTED ->
      BladeRF.set_gain false gain name ch c
        = Throw "Failed to set gain for stage")).
Proof.
  split; [|split].
  - intros ret gain name s Hatt Hlna.
    apply String.eqb_neq in Hatt, Hlna.
    unfold AirspyHF.set_gain, AirspyHF.get_gain. rewrite Hatt, Hlna.
    eexists. split; [reflexivity|]. by destruct s.
  - intros gain name ch c Hlna Hv1 Hv2.
    apply String.eqb_neq in Hlna, Hv1, Hv2.
    unfold BladeRF.set_gain, BladeRF.get_gain. rewrite Hlna, Hv1, Hv2.
    simpl. unfold BladeRF.BLADERF_WARN_STATUS, BladeRF.BLADERF_WARNING.
    simpl. by rewrite <- app_assoc.
  - intros gain name ch c g status d Hsys Hg Hdrv.
    apply String.eqb_neq in Hsys. split; [|split].
    + intros ->. unfold BladeRF.set_gain. rewrite Hg. simpl.
      rewrite Hsys, Hdrv. simpl. unfold BladeRF.get_gain. rewrite Hsys.
      simpl. destruct (BladeRF.bladerf_get_gain_stage d ch name) as [st v].
      simpl. destruct (negb (st =? 0)).
      * eexists _, _. split; [reflexivity|]. split; [done|]. simpl.
        by rewrite <- app_assoc.
      * eexists _, []. split; [reflexivity|]. done.
    + intros ->. unfold BladeRF.set_gain. rewrite Hg. simpl.
      by rewrite Hsys, Hdrv.
    + intros H0 Hu. unfold BladeRF.set_gain. rewrite Hg. simpl.
      rewrite Hsys, Hdrv. simpl.
      apply Z.eqb_neq in H0, Hu. by rewrite Hu, H0.
Qed.

End GainStageProperties.

Lemma gain_stage_local_when_unsupported_witness :
  (exists s',
     AirspyHF.set_gain 0 10 "IF" AirspyHF.constructed = Ok (0%float, s') /\
     AirspyHF.out s' =
       [Message WARNING "set_gain" [SStr "unknown gain: "; SStr "IF"]]) /\
  (exists c' more,
     BladeRF.set_gain false 10 "IF" 0 BladeRF.sim_board
       = Ok (0%float, c') /\
     BladeRF.out c' =
       Message WARNING "set_gain"
         [SStr "Gain stage "; SStr "IF"; SStr " not supported by device"]
       :: more).
Proof.
  destruct (@gain_stage_local_when_unsupported BladeRF.sim_device
              BladeRF.sim_libbladeRF) as (Ha & _ & Hn).
  split.
  - destruct (Ha 0 10%float "IF" AirspyHF.constructed)
      as (s' & Hs & Hout & _); [done..|]. exists s'. split; [exact Hs|].
    exact Hout.
  - destruct (Hn 10%float "IF" 0 BladeRF.sim_board 10
                 BladeRF.BLADERF_ERR_UNSUPPORTED
                 (BladeRF._dev BladeRF.sim_board))
      as (Hu & _); [done | vm_compute; reflexivity | reflexivity |].
    destruct (Hu eq_refl) as (c' & more & Hs & _ & Hout).
    exists c', more. split; [exact Hs | exact Hout].
Defined.

(** C8, as claimed, fails. A board that turns down a stage it does not
    know as an invalid argument: [set_gain] for the stage "IF" throws,
    it neither warns nor returns a value. *)
Lemma rejected_gain_stage_is_thrown :
  BladeRF.bladerf_set_gain_stage (BladeRF._dev BladeRF.plain_board) 0 "IF" 10
    = (-3, BladeRF._dev BladeRF.plain_board) /\
  BladeRF.set_gain false 10 "IF" 0 BladeRF.plain_board
    = Throw "Failed to set gain for stage".
Proof. split; vm_compute; reflexivity. Qed.

(** ** The cache of open bladeRF devices *)

Section CacheProperties.
Import BladeRF.
Context {devinfo : Type} `{libbladeRF_open devinfo}.

(** The driver opens a unit that answers and that matches the request. *)
Hypothesis open_matches : forall d conns status r,
  bladerf_open_with_devinfo d conns = (status, r) ->
  0 <= status ->
  0 <= (bladerf_get_devinfo r).1 /\
  bladerf_devinfo_matches d (bladerf_get_devinfo r).2 = true.

Lemma use_count_block h w :
  use_count h w <> 0%nat ->
  exists b, blocks w !! h = Some b /\ cb_use b = use_count h w.
Proof. unfold use_count. destruct (blocks w !! h); [eauto | done]. Qed.

Lemma use_count_blocks h w w' :
  blocks w' = blocks w -> use_count h w' = use_count h w.
Proof. unfold use_count. by intros ->. Qed.

Lemma get_blocks h w w' : blocks w' = blocks w -> get h w' = get h w.
Proof. unfold get. by intros ->. Qed.

Lemma use_count_with_use_eq h n w :
  use_count h w <> 0%nat -> use_count h (with_use h n w) = n.
Proof.
  intros (b & Hb & _)%use_count_block. unfold use_count, with_use. simpl.
  by rewrite list_lookup_alter_eq, Hb.
Qed.

Lemma use_count_with_use_ne h h' n w :
  h' <> h -> use_count h' (with_use h n w) = use_count h' w.
Proof.
  intros Hne. unfold use_count, with_use. simpl.
  by rewrite list_lookup_alter_ne.
Qed.

Lemma get_with_use h h' n w : get h' (with_use h n w) = get h' w.
Proof.
  unfold get, with_use. simpl. destruct (decide (h = h')) as [->|Hne].
  - rewrite list_lookup_alter_eq. by destruct (blocks w !! h').
  - by rewrite list_lookup_alter_ne.
Qed.

Lemma with_use_again h n m w : with_use h n (with_use h m w) = with_use h n w.
Proof.
  unfold with_use. simpl. f_equal. apply list_eq. intros i.
  destruct (decide (h = i)) as [->|Hne].
  - rewrite !list_lookup_alter_eq. by destruct (blocks w !! i).
  - by rewrite !list_lookup_alter_ne.
Qed.

Lemma with_use_same h w : with_use h (use_count h w) w = w.
Proof.
  unfold with_use, use_count. destruct w as [bs ds cs]. simpl. f_equal.
  apply list_eq. intros i. destruct (decide (h = i)) as [->|Hne].
  - rewrite list_lookup_alter_eq. by destruct (bs !! i) as [[]|].
  - by rewrite list_lookup_alter_ne.
Qed.

(** A temporary owner comes and goes. *)
Lemma lock_release h w :
  use_count h w <> 0%nat ->
  lock h w = Some (with_use h (S (use_count h w)) w) /\
  release h (with_use h (S (use_count h w)) w) = w.
Proof.
  intros Hlive. split.
  - unfold lock, expired. by rewrite (proj2 (Nat.eqb_neq _ _) Hlive).
  - unfold release. rewrite use_count_with_use_eq by done.
    rewrite with_use_again, with_use_same.
    by rewrite (proj2 (Nat.eqb_neq _ _) Hlive).
Qed.

Lemma get_cached_device_from_spec ws d w :
  (forall h, h ∈ ws ->
     use_count h w <> 0%nat /\ 0 <= (bladerf_get_devinfo (get h w)).1) ->
  get_cached_device_from ws d w =
    match find (fun h => bladerf_devinfo_matches d (identity w h)) ws with
    | Some h => (Ok (Some h), with_use h (S (use_count h w)) w)
    | None => (Ok None, w)
    end.
Proof.
  induction ws as [|h ws IH]; intros Hws; simpl; [done|].
  destruct (Hws h) as [Hlive Hst]; [by left|].
  destruct (lock_release h w Hlive) as [Hlock Hrel].
  rewrite Hlock, get_with_use. unfold identity.
  destruct (bladerf_get_devinfo (get h w)) as [status other]. simpl in *.
  rewrite Hrel. rewrite (proj2 (Z.ltb_ge _ _) Hst).
  destruct (bladerf_devinfo_matches d other); [by rewrite Hlock|].
  apply IH. intros h' Hh'. apply Hws. by right.
Qed.

Lemma open_spec device_name w status d :
  cache_ok w ->
  bladerf_get_devinfo_from_str device_name = (status, d) ->
  0 <= status ->
  open device_name w =
    match first_match d w with
    | Some h => (Ok h, with_use h (S (use_count h w)) w)
    | None =>
        let '(status, r) := bladerf_open_with_devinfo d (connections w) in
        if status <? 0 then (Throw "Failed to open device", w)
        else (Ok (length (blocks w)),
              Devs (blocks w ++ [Block r 1]) (_devs w ++ [length (blocks w)])
                   (connections w ++ [r]))
    end.
Proof.
  intros Hok Hstr Hst. unfold open, get_cached_device, first_match.
  rewrite Hstr, (proj2 (Z.ltb_ge _ _) Hst).
  rewrite get_cached_device_from_spec.
  - destruct (find _ _); [done|].
    destruct (bladerf_open_with_devinfo d (connections w)) as [st r].
    by destruct (st <? 0).
  - intros h Hh. split; [by apply (cached_live w) | by apply (cached_answer w)].
Qed.

(** The invariant looks at the blocks through [use_count] and [get]. *)
Lemma cache_ok_ext w w' :
  cache_ok w ->
  _devs w' = _devs w ->
  connections w' = connections w ->
  (forall h, get h w' = get h w) ->
  (forall h, use_count h w' <> 0%nat <-> use_count h w <> 0%nat) ->
  cache_ok w'.
Proof.
  intros [] Hd Hc Hg Hu.
  split; unfold identity in *; rewrite ?Hd, ?Hc; try done.
  - intros h Hh. apply Hu. auto.
  - intros h Hh. apply Hu in Hh. auto.
  - intros h Hh. rewrite Hg. auto.
  - intros h1 h2. rewrite !Hg. auto.
  - intros r. setoid_rewrite Hg. auto.
Qed.

Lemma cache_ok_lock w h :
  cache_ok w -> h ∈ _devs w -> cache_ok (with_use h (S (use_count h w)) w).
Proof.
  intros Hok Hh. apply (cache_ok_ext w); try done.
  - intros h'. apply get_with_use.
  - intros h'. destruct (decide (h' = h)) as [->|Hne].
    + rewrite use_count_with_use_eq by by apply (cached_live w).
      split; [intros _; by apply (cached_live w) | done].
    + by rewrite use_count_with_use_ne.
Qed.

Lemma find_none_all {A} (f : A -> bool) l x :
  find f l = None -> x ∈ l -> f x = false.
Proof.
  intros Hf Hx. apply list_elem_of_In in Hx.
  by apply (find_none f l Hf x).
Qed.

Lemma cache_ok_insert w d status r :
  cache_ok w ->
  first_match d w = None ->
  bladerf_open_with_devinfo d (connections w) = (status, r) ->
  0 <= status ->
  cache_ok (Devs (blocks w ++ [Block r 1]) (_devs w ++ [length (blocks w)])
                 (connections w ++ [r])).
Proof.
  intros Hok Hnone Hopen Hst.
  destruct (open_matches _ _ _ _ Hopen Hst) as [Hans Hmatch].
  set (n := length (blocks w)).
  set (w' := Devs _ _ _).
  assert (Hold : forall h, h ∈ _devs w -> (h < n)%nat).
  { intros h Hh. apply (cached_live w Hok) in Hh.
    apply use_count_block in Hh as (b & Hb & _).
    by apply lookup_lt_Some in Hb. }
  assert (Huse : forall h, (h < n)%nat -> use_count h w' = use_count h w).
  { intros h Hh. unfold use_count, w'. simpl. by rewrite lookup_app_l. }
  assert (Hget : forall h, (h < n)%nat -> get h w' = get h w).
  { intros h Hh. unfold get, w'. simpl. by rewrite lookup_app_l. }
  assert (Hnew : blocks w' !! n = Some (Block r 1)).
  { unfold w'. simpl. by apply list_lookup_middle. }
  assert (Hgetn : get n w' = r) by (unfold get; by rewrite Hnew).
  assert (Hnomatch : forall h, h ∈ _devs w ->
            bladerf_devinfo_matches d (identity w h) = false).
  { intros h Hh. by apply (find_none_all _ _ _ Hnone). }
  assert (Hfresh : forall h, h ∈ _devs w -> get h w <> r).
  { intros h Hh Heq. specialize (Hnomatch h Hh). unfold identity in Hnomatch.
    rewrite Heq in Hnomatch. congruence. }
  split; simpl.
  - intros h [Hh| ->%list_elem_of_singleton]%elem_of_app.
    + rewrite Huse by auto. by apply (cached_live w).
    + unfold use_count. by rewrite Hnew.
  - intros h Hh. apply elem_of_app.
    destruct (decide (h < n)%nat) as [Hlt|Hge].
    + left. apply (live_cached w Hok). by rewrite <- Huse.
    + right. apply list_elem_of_singleton.
      destruct (decide (h = n)) as [->|Hne]; [done|]. exfalso. apply Hh.
      unfold use_count, w'. simpl. rewrite lookup_ge_None_2; [done|].
      rewrite length_app. simpl. fold n. lia.
  - intros h [Hh| ->%list_elem_of_singleton]%elem_of_app.
    + rewrite Hget by auto. by apply (cached_answer w).
    + by rewrite Hgetn.
  - apply NoDup_app. split; [by apply (cached_once w)|]. split.
    + intros h Hh ->%list_elem_of_singleton. apply Hold in Hh. lia.
    + apply NoDup_singleton.
  - unfold identity.
    intros h1 h2 [H1| ->%list_elem_of_singleton]%elem_of_app
                 [H2| ->%list_elem_of_singleton]%elem_of_app;
      rewrite ?Hgetn, ?Hget by auto; intros Heq; try done.
    + by apply (cached_distinct w Hok).
    + specialize (Hnomatch h1 H1). unfold identity in Hnomatch.
      rewrite Heq in Hnomatch. congruence.
    + specialize (Hnomatch h2 H2). unfold identity in Hnomatch.
      rewrite <- Heq in Hnomatch. congruence.
  - apply NoDup_app. split; [by apply (connections_once w)|]. split.
    + intros r' Hr' ->%list_elem_of_singleton.
      apply (connections_cached w Hok) in Hr' as (h & Hh & Hg).
      by apply (Hfresh h).
    + apply NoDup_singleton.
  - intros r'. rewrite elem_of_app, list_elem_of_singleton. split.
    + intros [Hr'| ->].
      * apply (connections_cached w Hok) in Hr' as (h & Hh & Hg).
        exists h. rewrite elem_of_app, Hget by auto. auto.
      * exists n. rewrite elem_of_app, list_elem_of_singleton. auto.
    + intros (h & [Hh| ->%list_elem_of_singleton]%elem_of_app & Hg).
      * left. apply (connections_cached w Hok). exists h.
        rewrite <- Hget by auto. auto.
      * right. by rewrite <- Hg.
Qed.

Lemma cache_ok_release w h :
  cache_ok w -> use_count h w <> 0%nat -> cache_ok (release h w).
Proof.
  intros Hok Hlive. unfold release.
  destruct (use_count h w) as [|n] eqn:Hn; [done|].
  assert (Hlive' : use_count h w <> 0%nat) by lia.
  destruct (n =? 0)%nat eqn:Hz.
  - (* the last owner: the deleter runs *)
    apply Nat.eqb_eq in Hz as ->.
    set (w1 := with_use h 0 w).
    assert (Hin : h ∈ _devs w) by by apply (live_cached w).
    assert (Hgone : use_count h w1 = 0%nat)
      by by apply use_count_with_use_eq.
    assert (Hkept : forall h', h' <> h -> use_count h' w1 = use_count h' w)
      by (intros; by apply use_count_with_use_ne).
    assert (Hget : forall h', get h' w1 = get h' w)
      by (intros; apply get_with_use).
    assert (Hdevs : _devs w1 = _devs w) by done.
    assert (Hconn : connections w1 = connections w) by done.
    clearbody w1.
    assert (Hpruned : forall h',
              h' ∈ filter (fun h' => expired h' w1 = false) (_devs w1) <->
              h' ∈ _devs w /\ h' <> h).
    { intros h'. rewrite list_elem_of_filter, Hdevs. unfold expired.
      rewrite Nat.eqb_neq. split.
      - intros [Hu Hh']. split; [done|]. by intros ->.
      - intros [Hh' Hne]. split; [|done]. rewrite Hkept by done.
        by apply (cached_live w). }
    unfold close. split; simpl.
    + intros h' [Hh' Hne]%Hpruned.
      rewrite (use_count_blocks h' w1), Hkept by done.
      by apply (cached_live w).
    + intros h' Hu. rewrite (use_count_blocks h' w1) in Hu by done.
      apply Hpruned.
      destruct (decide (h' = h)) as [->|Hne]; [done|].
      split; [|done]. apply (live_cached w Hok). by rewrite <- Hkept.
    + intros h' [Hh' Hne]%Hpruned. rewrite (get_blocks h' w1), Hget by done.
      by apply (cached_answer w).
    + apply NoDup_filter. rewrite Hdevs. apply (cached_once w Hok).
    + unfold identity.
      intros h1 h2 [H1 _]%Hpruned [H2 _]%Hpruned.
      rewrite (get_blocks h1 w1), (get_blocks h2 w1), !Hget by done.
      by apply (cached_distinct w Hok).
    + apply NoDup_filter. rewrite Hconn. apply (connections_once w Hok).
    + intros r. rewrite list_elem_of_filter, Hconn, Hget.
      split.
      * intros [Hne (h' & Hh' & Hg)%(connections_cached w Hok)].
        exists h'. rewrite (get_blocks h' w1), Hget by done. split; [|done].
        apply Hpruned. split; [done|]. by intros ->.
      * intros (h' & [Hh' Hne]%Hpruned & Hg).
        rewrite (get_blocks h' w1), Hget in Hg by done. split.
        -- intros ->. apply Hne. apply (cached_distinct w Hok); try done.
           unfold identity. by rewrite Hg.
        -- apply (connections_cached w Hok). eauto.
  - apply Nat.eqb_neq in Hz. apply (cache_ok_ext w); try done.
    + intros h'. apply get_with_use.
    + intros h'. destruct (decide (h' = h)) as [->|Hne].
      * rewrite use_count_with_use_eq by done. rewrite Hn. split; done.
      * by rewrite use_count_with_use_ne.
Qed.

Lemma cache_ok_empty : cache_ok no_devs.
Proof.
  split; simpl; try done; try apply NoDup_nil_2.
  - intros h Hh. by apply elem_of_nil in Hh.
  - intros h Hh. by apply elem_of_nil in Hh.
  - intros h1 h2 Hh. by apply elem_of_nil in Hh.
  - intros r. split; [intros Hr; by apply elem_of_nil in Hr|].
    intros (h & Hh & _). by apply elem_of_nil in Hh.
Qed.

Lemma cache_ok_open device_name w :
  cache_ok w -> cache_ok (open device_name w).2.
Proof.
  intros Hok.
  destruct (bladerf_get_devinfo_from_str device_name) as [status d] eqn:Hstr.
  destruct (decide (0 <= status)) as [Hst|Hst].
  - rewrite (open_spec _ _ _ _ Hok Hstr Hst).
    destruct (first_match d w) as [h|] eqn:Hfind; simpl.
    + apply cache_ok_lock; [done|]. unfold first_match in Hfind.
      apply find_some in Hfind as [Hin _]. by apply list_elem_of_In.
    + destruct (bladerf_open_with_devinfo d (connections w)) as [st r] eqn:Ho.
      destruct (st <? 0) eqn:Hneg; simpl; [done|].
      apply Z.ltb_ge in Hneg. by eapply cache_ok_insert.
  - unfold open. rewrite Hstr.
    by rewrite (proj2 (Z.ltb_lt _ _)) by lia.
Qed.

(** What [open] does on a cache in good order. For a name whose
    devinfo matches a cached device it returns the first such handle
    with one owner more; the cache and the driver's connections are as
    before. When none matches, the call either fails in the driver,
    changing nothing, or appends one entry to the cache, for the one
    connection the driver has just opened, which matches the request. *)
Lemma open_in_good_order w :
  cache_ok w ->
  forall device_name status d,
    bladerf_get_devinfo_from_str device_name = (status, d) ->
    0 <= status ->
    match first_match d w with
    | Some h =>
        h ∈ _devs w /\
        bladerf_devinfo_matches d (identity w h) = true /\
        exists w',
          open device_name w = (Ok h, w') /\
          _devs w' = _devs w /\
          connections w' = connections w /\
          use_count h w' = S (use_count h w)
    | None =>
        (forall h, h ∈ _devs w ->
           bladerf_devinfo_matches d (identity w h) = false) /\
        ((open device_name w = (Throw "Failed to open device", w)) \/
         (exists h w',
            open device_name w = (Ok h, w') /\
            (h ∉ _devs w) /\
            _devs w' = _devs w ++ [h] /\
            connections w' = connections w ++ [get h w'] /\
            bladerf_devinfo_matches d (identity w' h) = true))
    end.
Proof.
  intros Hok device_name status d Hstr Hst.
  rewrite (open_spec _ _ _ _ Hok Hstr Hst).
  destruct (first_match d w) as [h|] eqn:Hfind.
  - unfold first_match in Hfind. apply find_some in Hfind as [Hin Hm].
    apply list_elem_of_In in Hin. split; [done|]. split; [done|].
    eexists. split; [reflexivity|]. split; [done|]. split; [done|].
    apply use_count_with_use_eq. by apply (cached_live w).
  - split; [intros h Hh; by apply (find_none_all _ _ _ Hfind)|].
    destruct (bladerf_open_with_devinfo d (connections w)) as [st r] eqn:Ho.
    destruct (st <? 0) eqn:Hneg; [by left|]. right.
    apply Z.ltb_ge in Hneg.
    destruct (open_matches _ _ _ _ Ho Hneg) as [_ Hmatch].
    assert (Hnew : get (length (blocks w))
              (Devs (blocks w ++ [Block r 1])
                    (_devs w ++ [length (blocks w)])
                    (connections w ++ [r])) = r).
    { unfold get. simpl. by rewrite list_lookup_middle. }
    eexists _, _. split; [reflexivity|]. split.
    + intros Hin. apply (cached_live w Hok) in Hin.
      apply use_count_block in Hin as (b & Hb & _).
      apply lookup_lt_Some in Hb. lia.
    + split; [done|]. unfold identity. rewrite Hnew. done.
Qed.

(** The scan of [get_cached_device] stops at the first entry whose
    last owner has gone: the cached devices before it do not match, and
    the [bladerf_sptr] made of the expired entry throws. *)
Lemma scan_meets_expired l1 h l2 d w :
  (forall h', h' ∈ l1 ->
     use_count h' w <> 0%nat /\
     0 <= (bladerf_get_devinfo (get h' w)).1 /\
     bladerf_devinfo_matches d (identity w h') = false) ->
  use_count h w = 0%nat ->
  get_cached_device_from (l1 ++ h :: l2) d w = (Throw "bad_weak_ptr", w).
Proof.
  intros Hl1 Hh. induction l1 as [|h' l1 IH]; simpl.
  - unfold lock, expired. by rewrite Hh.
  - destruct (Hl1 h' ltac:(by left)) as (Hlive & Hans & Hno).
    destruct (lock_release h' w Hlive) as [-> Hrel].
    rewrite get_with_use.
    destruct (bladerf_get_devinfo (get h' w)) as [st i] eqn:Hi.
    rewrite Hrel. simpl in Hans.
    destruct (Z.ltb_spec st 0); [lia|].
    unfold identity in Hno. rewrite Hi in Hno. simpl in Hno. rewrite Hno.
    apply IH. intros h'' Hin. apply Hl1. by right.
Qed.

(** With the deleter of a cached handle due, a call of [open] whose
    scan comes to that handle throws, whatever it was called for. *)
Lemma open_meets_expired l1 h l2 device_name status d w :
  bladerf_get_devinfo_from_str device_name = (status, d) ->
  0 <= status ->
  _devs w = l1 ++ h :: l2 ->
  (forall h', h' ∈ l1 ->
     use_count h' w <> 0%nat /\
     0 <= (bladerf_get_devinfo (get h' w)).1 /\
     bladerf_devinfo_matches d (identity w h') = false) ->
  use_count h w = 0%nat ->
  open device_name w = (Throw "bad_weak_ptr", w).
Proof.
  intros Hstr Hst Hdevs Hl1 Hh. unfold open, get_cached_device.
  rewrite Hstr. destruct (Z.ltb_spec status 0); [lia|].
  by rewrite Hdevs, (scan_meets_expired l1 h l2 d w Hl1 Hh).
Qed.

(** A release by the last owner with the deleter run at once is
    [release]. *)
Lemma release_is_drop_then_close h w :
  use_count h w = 1%nat ->
  close (get h (drop h w)) (drop h w) = release h w.
Proof. intros Hu. unfold release, drop. by rewrite Hu. Qed.

End CacheProperties.

Lemma sim_open_matches : forall d conns status r,
  BladeRF.bladerf_open_with_devinfo d conns = (status, r) ->
  0 <= status ->
  0 <= (BladeRF.bladerf_get_devinfo r).1 /\
  BladeRF.bladerf_devinfo_matches d (BladeRF.bladerf_get_devinfo r).2 = true.
Proof.
  intros d conns status r. simpl.
  destruct (d =? 0)%nat eqn:Hd; [intros; simplify_eq; by rewrite ?Hd|].
  destruct (bool_decide (d ∈ conns)); intros ? ?; simplify_eq; [lia|].
  split; [done|]. by rewrite Nat.eqb_refl, orb_true_r.
Defined.

(** C6, at the failing input. Two devices are open and cached, each
    with one owner. The owner of the first lets go of it: its count is
    0 and its deleter is due, but has not yet taken [_devs_mutex]. A
    call of [open] for the second device, which is cached and has its
    owner, now throws [std::bad_weak_ptr] from the scan of the cache
    and returns no handle. The same call returns the cached handle of
    the second device before the release, and again once the deleter
    has run and pruned the entry. *)
Theorem expired_entry_fails_open :
  exists s s',
    BladeRF.run [BladeRF.Open "aa"; BladeRF.Open "bbb"] BladeRF.no_clients
      = Some (BladeRF.Clients BladeRF.two_devs []) /\
    BladeRF.apply (BladeRF.Release 0%nat)
                  (BladeRF.Clients BladeRF.two_devs []) = Some s /\
    BladeRF.due s = [0%nat] /\
    BladeRF._devs (BladeRF.cache s) = [0%nat; 1%nat] /\
    BladeRF.use_count 1%nat (BladeRF.cache s) = 1%nat /\
    BladeRF.first_match 3%nat (BladeRF.cache s) = Some 1%nat /\
    BladeRF.open "bbb" (BladeRF.cache s)
      = (Throw "bad_weak_ptr", BladeRF.cache s) /\
    (exists w', BladeRF.open "bbb" BladeRF.two_devs = (Ok 1%nat, w')) /\
    BladeRF.apply (BladeRF.Close 0%nat) s = Some s' /\
    BladeRF.due s' = [] /\
    BladeRF._devs (BladeRF.cache s') = [1%nat] /\
    (exists w', BladeRF.open "bbb" (BladeRF.cache s') = (Ok 1%nat, w')).
Proof.
  eexists _, _.
  split; [vm_compute; reflexivity|].
  split; [vm_compute; reflexivity|].
  split; [reflexivity|]. split; [reflexivity|]. split; [reflexivity|].
  split; [vm_compute; reflexivity|].
  split; [vm_compute; reflexivity|].
  split; [eexists; vm_compute; reflexivity|].
  split; [vm_compute; reflexivity|].
  split; [reflexivity|]. split; [reflexivity|].
  eexists; vm_compute; reflexivity.
Qed.

(* --------------------------------------------------------------------- *)
(** ** bladerf_common: [init]                                             *)
(* --------------------------------------------------------------------- *)

Section InitProperties.
Import BladeRF.
Context `{Boost}.

(** X1. [_version_greater_or_equal] is the order of the versions read
    as numbers, 16 bits a field: for fields that fit, it answers true
    exactly when major.minor.patch is at most the version. *)
Theorem version_order v M m p :
  0 <= minor v < 2 ^ 16 -> 0 <= patch v < 2 ^ 16 ->
  0 <= m < 2 ^ 16 -> 0 <= p < 2 ^ 16 ->
  _version_greater_or_equal v M m p =
    (version_number M m p <=? version_number (major v) (minor v) (patch v)).
Proof.
  intros Hm Hp Hm' Hp'. unfold _version_greater_or_equal, version_number.
  destruct v as [vM vm vp]; simpl in *.
  repeat match goal with
         | |- context [?a <? ?b] => destruct (Z.ltb_spec a b)
         | |- context [?a =? ?b] => destruct (Z.eqb_spec a b)
         | |- context [?a <=? ?b] => destruct (Z.leb_spec a b)
         end; simpl; try reflexivity; try nia.
Qed.

(** The test that [init] makes: is the library 1.4.1 or newer? *)
Lemma version_threshold v :
  0 <= minor v < 2 ^ 16 -> 0 <= patch v < 2 ^ 16 ->
  _version_greater_or_equal v 1 4 1 =
    (version_number 1 4 1 <=? version_number (major v) (minor v) (patch v)).
Proof.
  intros Hm Hp. unfold _version_greater_or_equal, version_number.
  destruct v as [vM vm vp]; simpl in *.
  destruct (Z.ltb_spec 1 vM), (Z.eqb_spec vM 1), (Z.ltb_spec 4 vm),
    (Z.eqb_spec vm 4), (Z.leb_spec 1 vp); simpl;
    symmetry; first [apply Z.leb_le; lia | apply Z.leb_gt; lia].
Qed.

Lemma init_buffers_consistent c : consistent (init_buffers c).1.
Proof.
  unfold consistent, init_buffers, NUM_BUFFERS, NUM_SAMPLES_PER_BUFFER,
    NUM_TRANSFERS.
  destruct c as [nb spb nt to f]; simpl.
  repeat match goal with
         | |- context [(?a <=? ?b)%N] => destruct (N.leb_spec a b)
         | |- context [(?a <? ?b)%N] => destruct (N.ltb_spec a b)
         | |- context [(?a =? ?b)%N] => destruct (N.eqb_spec a b)
         end; simpl; repeat split; try lia;
    (zify; Z.to_euclidean_division_equations; lia).
Qed.

(** X2. Whatever the dictionary holds and whatever the members held
    before: when the buffer stage of [init] returns, there are at least
    two buffers, the samples per buffer are a multiple of 1024, at least
    1024, and the transfers are at least one and fewer than the
    buffers. *)
Theorem init_makes_buffers_consistent dict c c' out :
  init_stream_config dict c = Ok (c', out) -> consistent c'.
Proof.
  unfold init_stream_config. intros Hi.
  destruct (init_dict dict c) as [c1| | |] eqn:Hd; simpl in Hi;
    try discriminate.
  pose proof (init_buffers_consistent c1) as Hc.
  destruct (init_buffers c1) as [c2 out2]. by simplify_eq.
Qed.

(** X3. Settings that are consistent already are left as they are, and
    the one line logged is the INFO line with the three values: no
    default is put in their place, nothing is clamped, no warning
    given. *)
Theorem init_keeps_consistent_buffers c :
  consistent c ->
  init_buffers c =
    (c, [Message INFO "init"
           [SStr "Buffers, samples per buffer, active transfers";
            SInt (Z.of_N (_num_buffers c));
            SInt (Z.of_N (_samples_per_buffer c));
            SInt (Z.of_N (_num_transfers c))]]).
Proof.
  intros (Hb & Hs & Hm & Ht). unfold init_buffers.
  destruct c as [nb spb nt to f]; simpl in *.
  repeat match goal with
         | |- context [(?a <=? ?b)%N] => destruct (N.leb_spec a b)
         | |- context [(?a <? ?b)%N] => destruct (N.ltb_spec a b)
         | |- context [(?a =? ?b)%N] => destruct (N.eqb_spec a b)
         end; simpl; try reflexivity; try lia.
Qed.

(** X4. A "bladerf" value of more than two characters is taken for a
    serial number. It becomes the device name "*:serial=" followed by
    the value exactly when the library is 1.4.1 or newer, by the order
    of its version number, or the value has the 32 characters of a full
    serial number; otherwise [init] throws. *)
Theorem serial_needs_1_4_1_or_full_length dict ver value :
  dict !! "bladerf" = Some value ->
  (2 < String.length value)%nat ->
  0 <= minor ver < 2 ^ 16 -> 0 <= patch ver < 2 ^ 16 ->
  init_device_name dict ver =
    if (version_number 1 4 1
          <=? version_number (major ver) (minor ver) (patch ver))
       || (String.length value =? 32)%nat
    then Ok ("*:serial=" +:+ value)
    else Throw "A full serial number must be supplied".
Proof.
  intros Hd Hl Hm Hp. unfold init_device_name, count, _get. rewrite Hd.
  rewrite bool_decide_eq_true_2 by eauto.
  destruct (Nat.ltb_spec 0 (String.length value)); [|lia].
  destruct (Nat.leb_spec (String.length value) 2); [lia|].
  by rewrite version_threshold.
Qed.

End InitProperties.

Lemma version_order_witness :
  BladeRF._version_greater_or_equal (BladeRF.Version 2 1 0) 1 4 1
    = (BladeRF.version_number 1 4 1 <=? BladeRF.version_number 2 1 0).
Proof.
  apply (version_order (BladeRF.Version 2 1 0) 1 4 1); simpl; lia.
Defined.

Lemma init_makes_buffers_consistent_witness :
  BladeRF.init_stream_config
      {[ "buffers" := "1"; "buflen" := "1000"; "transfers" := "600" ]}
      BladeRF.default_config
    = Ok (BladeRF.default_config,
          [Message WARNING "init"
             [SStr "Invalid buflen value. A multiple of 1024 is required.";
              SInt 1000; SInt 4096];
           Message WARNING "init" [SStr "Clamping transfers"; SInt 32];
           Message INFO "init"
             [SStr "Buffers, samples per buffer, active transfers";
              SInt 512; SInt 4096; SInt 32]]) /\
  BladeRF.consistent BladeRF.default_config.
Proof.
  assert (BladeRF.init_stream_config
            {[ "buffers" := "1"; "buflen" := "1000"; "transfers" := "600" ]}
            BladeRF.default_config
          = Ok (BladeRF.default_config,
                [Message WARNING "init"
                   [SStr "Invalid buflen value. A multiple of 1024 is required.";
                    SInt 1000; SInt 4096];
                 Message WARNING "init" [SStr "Clamping transfers"; SInt 32];
                 Message INFO "init"
                   [SStr "Buffers, samples per buffer, active transfers";
                    SInt 512; SInt 4096; SInt 32]])) as Hi
    by (vm_compute; reflexivity).
  split; [exact Hi|].
  exact (init_makes_buffers_consistent _ _ _ _ Hi).
Defined.

Lemma init_keeps_consistent_buffers_witness :
  (BladeRF.init_buffers
     (BladeRF.Stream_config 16 8192 8 3000 BladeRF.BLADERF_FORMAT_SC16_Q11)).1
    = BladeRF.Stream_config 16 8192 8 3000 BladeRF.BLADERF_FORMAT_SC16_Q11.
Proof.
  rewrite (init_keeps_consistent_buffers
             (BladeRF.Stream_config 16 8192 8 3000
                BladeRF.BLADERF_FORMAT_SC16_Q11)).
  - reflexivity.
  - unfold BladeRF.consistent; simpl. repeat split; try lia.
Defined.

Lemma serial_needs_1_4_1_or_full_length_witness :
  BladeRF.init_device_name {[ "bladerf" := "f00d" ]} (BladeRF.Version 1 4 0)
    = Throw "A full serial number must be supplied" /\
  BladeRF.init_device_name {[ "bladerf" := "f00d" ]} (BladeRF.Version 1 4 1)
    = Ok "*:serial=f00d".
Proof.
  split.
  - rewrite (serial_needs_1_4_1_or_full_length
               {[ "bladerf" := "f00d" ]} (BladeRF.Version 1 4 0) "f00d");
      [reflexivity | reflexivity | simpl; lia | simpl; lia | simpl; lia].
  - vm_compute. reflexivity.
Defined.

(* --------------------------------------------------------------------- *)
(** ** bladerf_common: clock sources                                      *)
(* --------------------------------------------------------------------- *)

Section ClockProperties.
Import BladeRF.
Context {dev : Type} `{libbladeRF_clock dev}.

Lemma find_index_listed source :
  source ∈ get_clock_sources ->
  get_clock_sources !! find_index source get_clock_sources = Some source /\
  (find_index source get_clock_sources < 3)%nat.
Proof.
  unfold get_clock_sources. intros Hs.
  repeat (apply elem_of_cons in Hs as [-> | Hs];
          [vm_compute; split; [reflexivity | lia] |]).
  inversion Hs.
Qed.

Lemma find_index_unlisted source :
  source ∉ get_clock_sources ->
  find_index source get_clock_sources = 3%nat.
Proof.
  intros Hs. unfold find_index.
  destruct (list_find _ _) as [[i y]|] eqn:Hf; [|reflexivity].
  apply list_find_Some in Hf as (Hl & -> & _).
  exfalso. apply Hs. eapply list_elem_of_lookup_2, Hl.
Qed.

(** X5. With a tamer that reads back the mode it has accepted, a
    listed clock source that [set_clock_source] has set is the one
    [get_clock_source] answers. *)
Theorem clock_source_round_trip source c c' :
  source ∈ get_clock_sources ->
  (forall d mode d',
     bladerf_set_vctcxo_tamer_mode d mode = (0, d') ->
     bladerf_get_vctcxo_tamer_mode d' = (0, mode)) ->
  set_clock_source source c = Ok c' ->
  get_clock_source c' = Ok source.
Proof.
  intros Hs Hd. unfold set_clock_source, get_clock_source.
  destruct (find_index_listed source Hs) as [Hl Hi].
  change (length get_clock_sources) with 3%nat.
  destruct (Nat.ltb_spec (find_index source get_clock_sources) 3); [|lia].
  destruct (bladerf_set_vctcxo_tamer_mode _ _) as [status d] eqn:Hset.
  destruct (Z.eqb_spec status 0) as [-> |]; simpl; [|discriminate].
  intros [= <-]. simpl. rewrite (Hd _ _ _ Hset). simpl.
  destruct (Z.ltb_spec (Z.of_nat (find_index source get_clock_sources)) 0);
    [lia|].
  by rewrite Nat2Z.id, Hl.
Qed.

(** X6. A name that is not a listed clock source is not refused:
    [set_clock_source] does with it what it does with "internal", it
    asks the driver for the disabled tamer. *)
Theorem unknown_clock_source_is_internal source c :
  source ∉ get_clock_sources ->
  set_clock_source source c = set_clock_source "internal" c.
Proof.
  intros Hs. unfold set_clock_source.
  by rewrite (find_index_unlisted _ Hs).
Qed.

(** X7. [get_clock_source] by the driver's answer. With status 0 and
    one of the modes 0, 1 and 2 it returns the clock source listed at
    that place, and it returns in no other case; with status 0 and any
    other mode, the invalid mode -1 it starts from included, the lookup
    in the list throws [std::out_of_range]; with another status it
    throws the failure. A name it returns is a listed clock source. *)
Theorem get_clock_source_is_listed c status mode :
  bladerf_get_vctcxo_tamer_mode (_dev c) = (status, mode) ->
  (forall source,
     get_clock_source c = Ok source <->
     status = 0 /\ 0 <= mode <= 2 /\
     get_clock_sources !! Z.to_nat mode = Some source) /\
  (status = 0 -> ~ 0 <= mode <= 2 ->
   get_clock_source c = Throw "out_of_range") /\
  (status <> 0 ->
   get_clock_source c = Throw "Failed to get VCTCXO tamer mode") /\
  (forall source,
     get_clock_source c = Ok source -> source ∈ get_clock_sources).
Proof.
  intros Hdrv. unfold get_clock_source. rewrite Hdrv.
  destruct (Z.eqb_spec status 0) as [-> | Hst]; simpl.
  - destruct (Z.ltb_spec mode 0) as [Hneg | Hpos].
    + split; [|split; [|split]]; try done.
      intros source. split; [done | lia].
    + destruct (get_clock_sources !! Z.to_nat mode) as [s0|] eqn:Hl.
      * pose proof (lookup_lt_Some _ _ _ Hl) as Hlt. simpl in Hlt.
        split; [|split; [|split]]; try done.
        -- intros source. split; [intros [= <-] | intros (_ & _ & [= <-])];
             [split; [done|]; split; [lia | done] | done].
        -- intros _ Hout. lia.
        -- intros source [= <-]. eapply list_elem_of_lookup_2, Hl.
      * split; [|split; [|split]]; try done.
        intros source. split; [done | by intros (_ & _ & ?)].
  - split; [|split; [|split]]; try done.
    intros source. split; [done | by intros [? _]].
Qed.

End ClockProperties.

Lemma sim_clock_reads_back : forall d mode d',
  BladeRF.bladerf_set_vctcxo_tamer_mode d mode = (0, d') ->
  BladeRF.bladerf_get_vctcxo_tamer_mode d' = (0, mode).
Proof.
  intros d mode d'. simpl.
  destruct ((0 <=? mode) && (mode <=? 2)); intros [= <-]; reflexivity.
Qed.

Lemma clock_source_round_trip_witness :
  BladeRF.set_clock_source "external" (BladeRF.Common 0 [])
    = Ok (BladeRF.Common 2 []) /\
  BladeRF.get_clock_source (BladeRF.Common 2 []) = Ok "external".
Proof.
  assert (BladeRF.set_clock_source "external" (BladeRF.Common 0 [])
          = Ok (BladeRF.Common 2 [])) as Hs by (vm_compute; reflexivity).
  split; [exact Hs|].
  apply (clock_source_round_trip "external" (BladeRF.Common 0 []));
    [|exact sim_clock_reads_back | exact Hs].
  unfold BladeRF.get_clock_sources. set_solver.
Defined.

Lemma unknown_clock_source_is_internal_witness :
  BladeRF.set_clock_source "gpsdo" (BladeRF.Common 2 [])
    = BladeRF.set_clock_source "internal" (BladeRF.Common 2 []).
Proof.
  apply (unknown_clock_source_is_internal "gpsdo" (BladeRF.Common 2 [])).
  unfold BladeRF.get_clock_sources. intros Hin.
  repeat (apply elem_of_cons in Hin as [Hin | Hin]; [discriminate|]).
  inversion Hin.
Defined.

Lemma get_clock_source_is_listed_witness :
  BladeRF.get_clock_source (BladeRF.Common 1 []) = Ok "external_1pps" /\
  BladeRF.get_clock_source
      (BladeRF.Common BladeRF.BLADERF_VCTCXO_TAMER_INVALID [])
    = Throw "out_of_range".
Proof.
  split.
  - destruct (@get_clock_source_is_listed Z BladeRF.sim_clock
                (BladeRF.Common 1 []) 0 1 eq_refl)
      as (Hok & _).
    apply Hok. split; [done|]. split; [lia | reflexivity].
  - destruct (@get_clock_source_is_listed Z BladeRF.sim_clock
                (BladeRF.Common BladeRF.BLADERF_VCTCXO_TAMER_INVALID []) 0
                BladeRF.BLADERF_VCTCXO_TAMER_INVALID eq_refl)
      as (_ & Hout & _).
    apply Hout; [done|]. unfold BladeRF.BLADERF_VCTCXO_TAMER_INVALID. lia.
Defined.

(* --------------------------------------------------------------------- *)
(** ** bladerf_common: channels and antennas                              *)
(* --------------------------------------------------------------------- *)

Section ChannelProperties.
Import BladeRF.
Context `{Boost}.

Lemma substring_all s : String.substring 0 (String.length s) s = s.
Proof. induction s as [|a s IH]; simpl; [reflexivity | by rewrite IH]. Qed.

Lemma channel_of_port dir i :
  0 <= i < 2 ^ 30 ->
  BLADERF_CHANNEL dir i = 2 * i + (if dir is BLADERF_TX then 1 else 0).
Proof.
  intros Hi.
  unfold BLADERF_CHANNEL, BLADERF_CHANNEL_RX, BLADERF_CHANNEL_TX, as_int.
  rewrite Z.shiftl_mul_pow2 by lia.
  destruct dir.
  - rewrite Z.lor_0_r. change (2 ^ 1) with 2.
    rewrite Z.mod_small by lia. lia.
  - change (2 ^ 1) with 2. replace (i * 2) with (2 * i) by lia.
    replace (Z.lor (2 * i) 1) with (2 * i + 1).
    + rewrite Z.mod_small by lia. lia.
    + symmetry. apply Z.bits_inj'. intros n Hn.
      rewrite Z.lor_spec.
      destruct (Z.eq_dec n 0) as [-> |].
      * rewrite Z.testbit_odd_0. by rewrite orb_true_r.
      * replace n with (Z.succ (n - 1)) by lia.
        rewrite Z.testbit_odd_succ, Z.testbit_even_succ by lia.
        replace 1 with (2 * 0 + 1) at 2 by lia.
        rewrite Z.testbit_odd_succ by lia. rewrite Z.testbit_0_l.
        by rewrite orb_false_r.
Qed.

Lemma is_tx_channel dir i :
  0 <= i < 2 ^ 30 ->
  _is_tx (BLADERF_CHANNEL dir i) = (if dir is BLADERF_TX then true else false).
Proof.
  intros Hi. rewrite channel_of_port by done.
  unfold _is_tx, BLADERF_DIRECTION_MASK.
  pose proof (Z.land_ones (2 * i + (if dir is BLADERF_TX then 1 else 0)) 1
                ltac:(lia)) as Hl.
  change (Z.ones 1) with 1 in Hl. rewrite Hl. change (2 ^ 1) with 2.
  destruct dir.
  - replace ((2 * i + 0) mod 2) with 0; [done|].
    zify; Z.to_euclidean_division_equations; lia.
  - replace ((2 * i + 1) mod 2) with 1; [done|].
    zify; Z.to_euclidean_division_equations; lia.
Qed.

Lemma rfport_channel dir i :
  0 <= i < 2 ^ 30 -> channel2rfport (BLADERF_CHANNEL dir i) = i.
Proof.
  intros Hi. rewrite channel_of_port by done. unfold channel2rfport.
  rewrite Z.shiftr_div_pow2 by lia. change (2 ^ 1) with 2.
  destruct dir; zify; Z.to_euclidean_division_equations; lia.
Qed.

Lemma channel2str_port dir i :
  0 <= i < 2 ^ 30 ->
  channel2str (BLADERF_CHANNEL dir i) =
    (if dir is BLADERF_TX then "TX" else "RX") +:+ format_d (i + 1).
Proof.
  intros Hi. unfold channel2str.
  rewrite is_tx_channel, rfport_channel by done.
  assert ((BLADERF_CHANNEL dir i =? BLADERF_CHANNEL_INVALID) = false) as ->.
  { apply Z.eqb_neq. rewrite channel_of_port by done.
    unfold BLADERF_CHANNEL_INVALID. destruct dir; lia. }
  by destruct dir.
Qed.

Lemma str2channel_port dir i numstr :
  0 <= i < 2 ^ 30 ->
  numstr <> "" ->
  lexical_cast_unsigned_int numstr = Some (Z.to_N (i + 1)) ->
  str2channel ((if dir is BLADERF_TX then "TX" else "RX") +:+ numstr) =
    Ok (BLADERF_CHANNEL dir i).
Proof.
  intros Hi Hne Hcast. unfold str2channel.
  destruct numstr as [|a numstr]; [done|].
  assert ((Z.of_N (Z.to_N (i + 1)) - 1) mod 2 ^ 32 = i) as Hn.
  { rewrite Z2N.id by lia. rewrite Z.mod_small; lia. }
  destruct dir; simpl; rewrite substring_all, Hcast, Hn; reflexivity.
Qed.

(** X8. The name of a channel reads back as the channel: for the
    receive or the transmit channel of an RF port below 2^30, whose
    number, the port plus one, Boost prints as a text it converts back,
    [str2channel] of [channel2str] is the channel. *)
Theorem channel_name_round_trip dir i :
  0 <= i < 2 ^ 30 ->
  format_d (i + 1) <> "" ->
  lexical_cast_unsigned_int (format_d (i + 1)) = Some (Z.to_N (i + 1)) ->
  str2channel (channel2str (BLADERF_CHANNEL dir i)) =
    Ok (BLADERF_CHANNEL dir i).
Proof.
  intros Hi Hne Hcast. rewrite channel2str_port by done.
  by apply str2channel_port.
Qed.

(** X9. An antenna that [is_antenna_valid] accepts for a direction is
    the name of a channel of that direction whose RF port is below the
    channel count, and [str2channel] gives that channel; the channel
    count is at most 2^30 and Boost converts back the numbers it
    prints. *)
Theorem valid_antenna_names_channel max_channels dir antenna :
  (max_channels <= 2 ^ 30)%N ->
  (forall k, 1 <= k <= Z.of_N max_channels ->
     format_d k <> "" /\
     lexical_cast_unsigned_int (format_d k) = Some (Z.to_N k)) ->
  is_antenna_valid max_channels dir antenna = true ->
  exists i,
    0 <= i < Z.of_N max_channels /\
    antenna = channel2str (BLADERF_CHANNEL dir i) /\
    str2channel antenna = Ok (BLADERF_CHANNEL dir i) /\
    direction_is dir (BLADERF_CHANNEL dir i) = true.
Proof.
  intros Hn Hb Hv. unfold is_antenna_valid in Hv.
  apply bool_decide_eq_true in Hv. unfold get_antennas in Hv.
  apply list_elem_of_fmap in Hv as (i & -> & Hi).
  apply elem_of_seqZ in Hi.
  assert (0 <= i < 2 ^ 30) as Hi' by lia.
  exists i. split; [lia|]. split; [reflexivity|].
  destruct (Hb (i + 1)) as [Hne Hcast]; [lia|].
  split.
  - rewrite channel2str_port by done. by apply str2channel_port.
  - unfold direction_is. rewrite is_tx_channel by done. by destruct dir.
Qed.

Lemma foldr_min_all k a l :
  (forall x, x ∈ a :: l -> x = k) -> foldr Z.min a l = k.
Proof.
  induction l as [|b l IH]; simpl; intros Hk.
  - apply Hk. by left.
  - rewrite IH.
    + rewrite (Hk b); [lia|]. right. by left.
    + intros x Hx. apply Hk. apply elem_of_cons in Hx as [-> | Hx]; [by left|].
      right. by right.
Qed.

Lemma elem_of_serving dir chan m k :
  k ∈ serving dir chan m <->
  m !! k = Some (as_int chan) /\ direction_is dir k = true.
Proof.
  unfold serving. rewrite list_elem_of_fmap. split.
  - intros ([k' v] & -> & Hf).
    apply list_elem_of_filter in Hf as [[Hv Hd] Hm].
    simpl in *. subst v. by apply elem_of_map_to_list in Hm.
  - intros [Hm Hd]. exists (k, as_int chan). split; [done|].
    apply list_elem_of_filter. split; [done|]. by apply elem_of_map_to_list.
Qed.

Lemma chan2channel_unique dir chan s k :
  _chanmap s !! k = Some (as_int chan) ->
  direction_is dir k = true ->
  (forall k', _chanmap s !! k' = Some (as_int chan) ->
              direction_is dir k' = true -> k' = k) ->
  chan2channel dir chan s = k.
Proof.
  intros Hk Hd Hu. unfold chan2channel.
  assert (k ∈ serving dir chan (_chanmap s)) as Hin
    by by apply elem_of_serving.
  destruct (serving dir chan (_chanmap s)) as [|a l] eqn:Hs;
    [inversion Hin|].
  apply foldr_min_all. intros x Hx. rewrite <- Hs in Hx.
  apply elem_of_serving in Hx as [? ?]. by apply Hu.
Qed.

(** X10. [set_antenna] for a valid antenna, on a channel map that has
    an entry for every channel of the direction and in which at most
    one channel of the direction serves [chan]: the call returns true,
    afterwards the channel that serves [chan] is the one the antenna
    names, and unless nothing had to change that channel is enabled. *)
Theorem set_antenna_selects max_channels dir chan antenna s :
  (max_channels <= 2 ^ 30)%N ->
  (forall k, 1 <= k <= Z.of_N max_channels ->
     format_d k <> "" /\
     lexical_cast_unsigned_int (format_d k) = Some (Z.to_N k)) ->
  is_antenna_valid max_channels dir antenna = true ->
  (forall i, 0 <= i < Z.of_N max_channels ->
     is_Some (_chanmap s !! BLADERF_CHANNEL dir i)) ->
  (forall k, _chanmap s !! k = Some (as_int chan) ->
     direction_is dir k = true -> k = chan2channel dir chan s) ->
  exists i s',
    0 <= i < Z.of_N max_channels /\
    antenna = channel2str (BLADERF_CHANNEL dir i) /\
    set_antenna max_channels dir chan antenna s = Ok (true, s') /\
    chan2channel dir chan s' = BLADERF_CHANNEL dir i /\
    (s' = s \/ _enables s' !! BLADERF_CHANNEL dir i = Some true).
Proof.
  intros Hn Hb Hv He Hu.
  assert (exists i, 0 <= i < Z.of_N max_channels /\
                    antenna = channel2str (BLADERF_CHANNEL dir i))
    as (i & Hi & Ha).
  { pose proof Hv as Hin. unfold is_antenna_valid, get_antennas in Hin.
    apply bool_decide_eq_true, list_elem_of_fmap in Hin as (i & -> & Hi).
    apply elem_of_seqZ in Hi. exists i. split; [lia | done]. }
  assert (0 <= i < 2 ^ 30) as Hi' by lia.
  destruct (Hb (i + 1)) as [Hfmt Hcast]; [lia|].
  assert (str2channel antenna = Ok (BLADERF_CHANNEL dir i)) as Hstr.
  { rewrite Ha, channel2str_port by done. by apply str2channel_port. }
  assert (direction_is dir (BLADERF_CHANNEL dir i) = true) as Hdir.
  { unfold direction_is. rewrite is_tx_channel by done. by destruct dir. }
  exists i. unfold set_antenna. rewrite Hv, Hstr. simpl.
  set (nc := BLADERF_CHANNEL dir i) in *.
  set (oc := chan2channel dir chan s) in *.
  destruct (He i Hi) as [v Hnc]. fold nc in Hnc.
  unfold chanmap_at. rewrite Hnc.
  destruct (negb (oc =? nc) || negb (v =? as_int chan)) eqn:Hc.
  - eexists. split; [done|]. split; [done|]. split; [reflexivity|].
    split.
    + apply chan2channel_unique; simpl.
      * destruct (v =? -1); simpl; apply lookup_insert_eq.
      * done.
      * intros k' Hk' Hd'.
        destruct (Z.eq_dec k' nc) as [|Hne]; [done|]. exfalso.
        assert (<[oc:=v]> (_chanmap s) !! k' = Some (as_int chan)) as Hk''.
        { destruct (v =? -1); simpl in Hk';
            by rewrite lookup_insert_ne in Hk'. }
        destruct (Z.eq_dec k' oc) as [-> | Hne'].
        -- rewrite lookup_insert_eq in Hk''. injection Hk'' as ->.
           apply Hne. symmetry. by apply Hu.
        -- rewrite lookup_insert_ne in Hk'' by done.
           apply Hne'. by apply Hu.
    + right. simpl. apply lookup_insert_eq.
  - apply orb_false_iff in Hc as [Hc1 Hc2].
    apply negb_false_iff, Z.eqb_eq in Hc1, Hc2. subst v.
    exists s. split; [done|]. split; [done|]. split; [by destruct s|].
    split; [done | by left].
Qed.

Lemma foldr_min_in a l : foldr Z.min a l ∈ a :: l.
Proof.
  induction l as [|b l IH]; simpl; [by left|].
  destruct (Z.min_spec b (foldr Z.min a l)) as [[_ ->] | [_ ->]].
  - right. by left.
  - apply elem_of_cons in IH as [-> | IH]; [by left|]. right. by right.
Qed.

Lemma chan2channel_serves dir chan s k :
  k ∈ serving dir chan (_chanmap s) ->
  chan2channel dir chan s ∈ serving dir chan (_chanmap s).
Proof.
  unfold chan2channel. intros Hk.
  destruct (serving dir chan (_chanmap s)) as [|a l]; [inversion Hk|].
  apply foldr_min_in.
Qed.

(** X21. [set_antenna] keeps the channel map in order. On a map that
    has an entry for every channel of the direction and in which no two
    channels of the direction serve the same index, for an index that
    is not -1 as an [int]: at most one channel serves the index, the one
    [chan2channel] finds; and when the call returns, the map still has
    an entry for every channel of the direction and still no two of
    them serve the same index, the channel taken from another index
    having been given what the new one served. *)
Theorem set_antenna_keeps_channels_apart max_channels dir chan antenna s r s' :
  (max_channels <= 2 ^ 30)%N ->
  (forall k, 1 <= k <= Z.of_N max_channels ->
     format_d k <> "" /\
     lexical_cast_unsigned_int (format_d k) = Some (Z.to_N k)) ->
  (forall i, 0 <= i < Z.of_N max_channels ->
     is_Some (_chanmap s !! BLADERF_CHANNEL dir i)) ->
  as_int chan <> -1 ->
  one_channel_each dir s ->
  set_antenna max_channels dir chan antenna s = Ok (r, s') ->
  (forall k, _chanmap s !! k = Some (as_int chan) ->
     direction_is dir k = true -> k = chan2channel dir chan s) /\
  one_channel_each dir s' /\
  (forall i, 0 <= i < Z.of_N max_channels ->
     is_Some (_chanmap s' !! BLADERF_CHANNEL dir i)).
Proof.
  intros Hn Hb He Hc Hone Hset.
  assert (forall k, _chanmap s !! k = Some (as_int chan) ->
            direction_is dir k = true -> k = chan2channel dir chan s) as Hu.
  { intros k Hk Hd.
    assert (k ∈ serving dir chan (_chanmap s)) as Hin
      by by apply elem_of_serving.
    apply chan2channel_serves, elem_of_serving in Hin as [Hk' Hd'].
    by apply (Hone (as_int chan)). }
  split; [exact Hu|].
  unfold set_antenna in Hset.
  destruct (is_antenna_valid max_channels dir antenna) eqn:Hv;
    simpl in Hset; [|done].
  assert (exists i, 0 <= i < Z.of_N max_channels /\
                    antenna = channel2str (BLADERF_CHANNEL dir i))
    as (i & Hi & Ha).
  { pose proof Hv as Hin. unfold is_antenna_valid, get_antennas in Hin.
    apply bool_decide_eq_true, list_elem_of_fmap in Hin as (i & -> & Hi).
    apply elem_of_seqZ in Hi. exists i. split; [lia | done]. }
  assert (0 <= i < 2 ^ 30) as Hi' by lia.
  destruct (Hb (i + 1)) as [Hfmt Hcast]; [lia|].
  assert (str2channel antenna = Ok (BLADERF_CHANNEL dir i)) as Hstr.
  { rewrite Ha, channel2str_port by done. by apply str2channel_port. }
  assert (direction_is dir (BLADERF_CHANNEL dir i) = true) as Hdir.
  { unfold direction_is. rewrite is_tx_channel by done. by destruct dir. }
  rewrite Hstr in Hset. simpl in Hset.
  set (nc := BLADERF_CHANNEL dir i) in *.
  set (oc := chan2channel dir chan s) in *.
  destruct (He i Hi) as [v Hnc]. fold nc in Hnc.
  unfold chanmap_at in Hset. rewrite Hnc in Hset.
  destruct (negb (oc =? nc) || negb (v =? as_int chan)) eqn:Hcond.
  - assert (_chanmap s' = <[nc := as_int chan]> (<[oc := v]> (_chanmap s)))
      as Hm.
    { destruct (v =? -1); by simplify_eq/=. }
    clear Hset. split.
    + intros c k1 k2 Hc0 H1 H2 Hd1 Hd2. rewrite Hm in H1, H2.
      assert (forall k, k <> nc -> k <> oc ->
                _chanmap s !! k = Some (as_int chan) ->
                direction_is dir k = true -> False) as Hother.
      { intros k Hk1 Hk2 Hk Hd. apply Hk2. by apply Hu. }
      assert (oc <> nc -> v <> as_int chan) as Hv'.
      { intros Hne ->. apply Hne. symmetry. by apply Hu. }
      destruct (Z.eq_dec k1 nc) as [-> | Hn1],
               (Z.eq_dec k2 nc) as [-> | Hn2]; [done | | |].
      * rewrite lookup_insert_eq in H1. rewrite lookup_insert_ne in H2 by done.
        simplify_eq. exfalso.
        destruct (Z.eq_dec k2 oc) as [-> | Ho2].
        -- rewrite lookup_insert_eq in H2. simplify_eq. by apply Hv'.
        -- rewrite lookup_insert_ne in H2 by done. by eapply Hother.
      * rewrite lookup_insert_eq in H2. rewrite lookup_insert_ne in H1 by done.
        simplify_eq. exfalso.
        destruct (Z.eq_dec k1 oc) as [-> | Ho1].
        -- rewrite lookup_insert_eq in H1. simplify_eq. by apply Hv'.
        -- rewrite lookup_insert_ne in H1 by done. by eapply Hother.
      * rewrite lookup_insert_ne in H1, H2 by done.
        destruct (Z.eq_dec k1 oc) as [-> | Ho1],
                 (Z.eq_dec k2 oc) as [-> | Ho2]; [done | | |].
        -- rewrite lookup_insert_eq in H1. rewrite lookup_insert_ne in H2 by done.
           simplify_eq. exfalso. apply Hn2.
           by apply (Hone c).
        -- rewrite lookup_insert_eq in H2. rewrite lookup_insert_ne in H1 by done.
           simplify_eq. exfalso. apply Hn1.
           by apply (Hone c).
        -- rewrite lookup_insert_ne in H1, H2 by done. by apply (Hone c).
    + intros j Hj. rewrite Hm. destruct (He j Hj) as [x Hx].
      destruct (Z.eq_dec (BLADERF_CHANNEL dir j) nc) as [-> | Hn1];
        [rewrite lookup_insert_eq; eauto|].
      rewrite lookup_insert_ne by done.
      destruct (Z.eq_dec (BLADERF_CHANNEL dir j) oc) as [-> | Ho1];
        [rewrite lookup_insert_eq; eauto|].
      rewrite lookup_insert_ne by done. eauto.
  - simplify_eq/=. split; [by destruct s | by destruct s].
Qed.

End ChannelProperties.

Lemma sim_boost_reads_back : forall k, 1 <= k <= 2 ->
  BladeRF.format_d k <> "" /\
  BladeRF.lexical_cast_unsigned_int (BladeRF.format_d k) = Some (Z.to_N k).
Proof.
  intros k Hk. assert (k = 1 \/ k = 2) as [-> | ->] by lia;
    vm_compute; split; done.
Qed.

Lemma channel_name_round_trip_witness :
  BladeRF.channel2str (BladeRF.BLADERF_CHANNEL BladeRF.BLADERF_TX 1) = "TX2" /\
  BladeRF.str2channel "TX2" = Ok 3.
Proof.
  split; [vm_compute; reflexivity|].
  destruct (sim_boost_reads_back 2 ltac:(lia)) as [Hne Hcast].
  exact (channel_name_round_trip BladeRF.BLADERF_TX 1 ltac:(lia) Hne Hcast).
Defined.

Lemma valid_antenna_names_channel_witness :
  BladeRF.get_antennas 2 BladeRF.BLADERF_RX = ["RX1"; "RX2"] /\
  exists i, 0 <= i < 2 /\
            BladeRF.str2channel "RX2"
              = Ok (BladeRF.BLADERF_CHANNEL BladeRF.BLADERF_RX i).
Proof.
  split; [vm_compute; reflexivity|].
  destruct (@valid_antenna_names_channel BladeRF.sim_boost 2
              BladeRF.BLADERF_RX "RX2")
    as (i & Hi & _ & Hs & _);
    [vm_compute; discriminate | exact sim_boost_reads_back
     | vm_compute; reflexivity |].
  exists i. split; [exact Hi | exact Hs].
Defined.

Lemma set_antenna_selects_witness :
  exists i s',
    0 <= i < 2 /\
    "RX2" = BladeRF.channel2str
              (BladeRF.BLADERF_CHANNEL BladeRF.BLADERF_RX i) /\
    BladeRF.set_antenna 2 BladeRF.BLADERF_RX 0 "RX2"
      (BladeRF.Channels {[ 0 := 0; 2 := -1 ]} ∅) = Ok (true, s') /\
    BladeRF.chan2channel BladeRF.BLADERF_RX 0 s'
      = BladeRF.BLADERF_CHANNEL BladeRF.BLADERF_RX i /\
    (s' = BladeRF.Channels {[ 0 := 0; 2 := -1 ]} ∅ \/
     BladeRF._enables s' !! BladeRF.BLADERF_CHANNEL BladeRF.BLADERF_RX i
       = Some true).
Proof.
  apply (@set_antenna_selects BladeRF.sim_boost 2 BladeRF.BLADERF_RX 0 "RX2").
  - vm_compute. discriminate.
  - exact sim_boost_reads_back.
  - vm_compute. reflexivity.
  - intros i Hi. assert (i = 0 \/ i = 1) as [-> | ->] by lia;
      vm_compute; eauto.
  - intros k Hk Hd. cbn [BladeRF._chanmap] in Hk. vm_compute.
    destruct (Z.eq_dec k 0) as [-> |]; [done|].
    destruct (Z.eq_dec k 2) as [-> |]; [done|].
    rewrite lookup_insert_ne, lookup_singleton_ne in Hk by done. done.
Defined.

Lemma two_receivers_apart :
  BladeRF.one_channel_each BladeRF.BLADERF_RX
    (BladeRF.Channels {[ 0 := 0; 2 := -1 ]} ∅).
Proof.
  intros c k1 k2 Hc H1 H2 _ _. cbn [BladeRF._chanmap] in H1, H2.
  assert (forall k, ({[ 0 := 0; 2 := -1 ]} : gmap Z Z) !! k = Some c ->
            k = 0) as Hk.
  { intros k Hk. destruct (Z.eq_dec k 0) as [-> |]; [done|].
    rewrite lookup_insert_ne in Hk by done.
    destruct (Z.eq_dec k 2) as [-> |].
    - rewrite lookup_singleton_eq in Hk. by simplify_eq.
    - by rewrite lookup_singleton_ne in Hk. }
  by rewrite (Hk k1 H1), (Hk k2 H2).
Qed.

Lemma set_antenna_keeps_channels_apart_witness :
  BladeRF.set_antenna 2 BladeRF.BLADERF_RX 1 "RX1"
      (BladeRF.Channels {[ 0 := 0; 2 := -1 ]} ∅)
    = Ok (true, BladeRF.Channels {[ -1 := 0; 0 := 1; 2 := -1 ]}
                                 {[ 0 := true ]}) /\
  BladeRF.one_channel_each BladeRF.BLADERF_RX
    (BladeRF.Channels {[ -1 := 0; 0 := 1; 2 := -1 ]} {[ 0 := true ]}).
Proof.
  assert (BladeRF.set_antenna 2 BladeRF.BLADERF_RX 1 "RX1"
            (BladeRF.Channels {[ 0 := 0; 2 := -1 ]} ∅)
          = Ok (true, BladeRF.Channels {[ -1 := 0; 0 := 1; 2 := -1 ]}
                                       {[ 0 := true ]})) as Hs
    by (vm_compute; reflexivity).
  split; [exact Hs|].
  assert (forall i, 0 <= i < Z.of_N 2 ->
            is_Some (BladeRF._chanmap
                       (BladeRF.Channels {[ 0 := 0; 2 := -1 ]} ∅)
                     !! BladeRF.BLADERF_CHANNEL BladeRF.BLADERF_RX i)) as He.
  { intros i Hi. assert (i = 0 \/ i = 1) as [-> | ->] by lia;
      vm_compute; eauto. }
  assert (BladeRF.as_int 1 <> -1) as Hc by (vm_compute; discriminate).
  destruct (@set_antenna_keeps_channels_apart BladeRF.sim_boost 2
              BladeRF.BLADERF_RX 1 "RX1" _ _ _
              ltac:(vm_compute; discriminate) sim_boost_reads_back
              He Hc two_receivers_apart Hs) as (_ & Hone & _).
  exact Hone.
Defined.

(* --------------------------------------------------------------------- *)
(** ** bladerf_common: corrections                                        *)
(* --------------------------------------------------------------------- *)

Section CorrectionProperties.
Import BladeRF.
Context {dev : Type} `{libbladeRF_correction dev}.

Lemma to_int16_fits z :
  - 2 ^ 15 <= z < 2 ^ 15 -> to_int16 (Some z) = Ok z.
Proof.
  intros [Hlo Hhi]. unfold to_int16.
  apply Z.leb_le in Hlo. apply Z.ltb_lt in Hhi. by rewrite Hlo, Hhi.
Qed.

Lemma set_corrections_status first second v1 v2 ch c :
  let r1 := bladerf_set_correction (_dev c) ch first v1 in
  let r2 := bladerf_set_correction r1.2 ch second v2 in
  exists ret,
    set_corrections first second v1 v2 ch c = (ret, with_dev r2.2 c) /\
    (ret = 0 <-> r1.1 = 0 /\ r2.1 = 0) /\
    (ret < 0 <-> r1.1 < 0 \/ r2.1 < 0).
Proof.
  unfold set_corrections. simpl.
  destruct (bladerf_set_correction (_dev c) ch first v1) as [s1 d1].
  simpl. destruct (bladerf_set_correction d1 ch second v2) as [s2 d2].
  simpl. exists (Z.lor s1 s2). split; [done|].
  split; [apply Z.lor_eq_0_iff | apply Z.lor_neg].
Qed.

(** X11. [set_dc_offset] for an offset whose two parts, scaled and
    with the fraction discarded, fit an [int16_t]; beyond that the
    conversion is undefined and nothing is said here. The driver is
    given exactly these two values, the I correction first and the Q
    correction on the device as the first call left it, whatever that
    call answered. [set_dc_offset] returns; the status returned is 0
    exactly when both calls answered 0, and negative exactly when one
    of them answered a negative status. *)
Theorem dc_offset_status DCOFF_SCALE offset ch c val_i val_q :
  trunc (offset.1 * DCOFF_SCALE)%float = Some val_i ->
  trunc (offset.2 * DCOFF_SCALE)%float = Some val_q ->
  - 2 ^ 15 <= val_i < 2 ^ 15 -> - 2 ^ 15 <= val_q < 2 ^ 15 ->
  let r1 := bladerf_set_correction (_dev c) ch BLADERF_CORR_LMS_DCOFF_I
                                   val_i in
  let r2 := bladerf_set_correction r1.2 ch BLADERF_CORR_LMS_DCOFF_Q val_q in
  exists ret,
    set_dc_offset DCOFF_SCALE offset ch c = Ok (ret, with_dev r2.2 c) /\
    (ret = 0 <-> r1.1 = 0 /\ r2.1 = 0) /\
    (ret < 0 <-> r1.1 < 0 \/ r2.1 < 0).
Proof.
  intros Hi Hq Hri Hrq. unfold set_dc_offset.
  rewrite Hi, Hq, (to_int16_fits _ Hri), (to_int16_fits _ Hrq). simpl.
  destruct (set_corrections_status BLADERF_CORR_LMS_DCOFF_I
              BLADERF_CORR_LMS_DCOFF_Q val_i val_q ch c)
    as (ret & Hs & H0 & Hneg).
  exists ret. by rewrite Hs.
Qed.

(** X12. [set_iq_balance] for a balance whose gain and phase, scaled
    and with the fraction discarded, fit an [int16_t]; beyond that the
    conversion is undefined and nothing is said here. The driver is
    given exactly these two values, the gain correction first and the
    phase correction on the device as the first call left it, whatever
    that call answered. [set_iq_balance] returns; the status returned
    is 0 exactly when both calls answered 0, and negative exactly when
    one of them answered a negative status. *)
Theorem iq_balance_status GAIN_SCALE PHASE_SCALE balance ch c
    val_gain val_phase :
  trunc (balance.1 * GAIN_SCALE)%float = Some val_gain ->
  trunc (balance.2 * PHASE_SCALE)%float = Some val_phase ->
  - 2 ^ 15 <= val_gain < 2 ^ 15 -> - 2 ^ 15 <= val_phase < 2 ^ 15 ->
  let r1 := bladerf_set_correction (_dev c) ch BLADERF_CORR_FPGA_GAIN
                                   val_gain in
  let r2 := bladerf_set_correction r1.2 ch BLADERF_CORR_FPGA_PHASE
                                   val_phase in
  exists ret,
    set_iq_balance GAIN_SCALE PHASE_SCALE balance ch c
      = Ok (ret, with_dev r2.2 c) /\
    (ret = 0 <-> r1.1 = 0 /\ r2.1 = 0) /\
    (ret < 0 <-> r1.1 < 0 \/ r2.1 < 0).
Proof.
  intros Hg Hp Hrg Hrp. unfold set_iq_balance.
  rewrite Hg, Hp, (to_int16_fits _ Hrg), (to_int16_fits _ Hrp). simpl.
  destruct (set_corrections_status BLADERF_CORR_FPGA_GAIN
              BLADERF_CORR_FPGA_PHASE val_gain val_phase ch c)
    as (ret & Hs & H0 & Hneg).
  exists ret. by rewrite Hs.
Qed.

End CorrectionProperties.

Lemma dc_offset_status_witness :
  exists ret,
    BladeRF.set_dc_offset 2048 (0.5, -0.25)%float 0
        (BladeRF.Common 0%nat [])
      = Ok (ret, BladeRF.Common 2%nat []) /\
    ret = 0.
Proof.
  destruct (@dc_offset_status nat BladeRF.sim_correction 2048
              (0.5, -0.25)%float 0 (BladeRF.Common 0%nat []) 1024 (-512))
    as (ret & Hs & H0 & _);
    [vm_compute; reflexivity | vm_compute; reflexivity | lia | lia |].
  exists ret. split; [exact Hs|]. apply H0. split; reflexivity.
Defined.

Lemma iq_balance_status_witness :
  exists ret,
    BladeRF.set_iq_balance 4096 4096 (0.25, 0.75)%float 1
        (BladeRF.Common 0%nat [])
      = Ok (ret, BladeRF.Common 2%nat []) /\
    ret < 0.
Proof.
  destruct (@iq_balance_status nat BladeRF.sim_correction 4096 4096
              (0.25, 0.75)%float 1 (BladeRF.Common 0%nat []) 1024 3072)
    as (ret & Hs & _ & Hneg);
    [vm_compute; reflexivity | vm_compute; reflexivity | lia | lia |].
  exists ret. split; [exact Hs|]. apply Hneg. right. vm_compute. reflexivity.
Defined.

(* --------------------------------------------------------------------- *)
(** ** airspyhf_source_c: histories of the bridge                         *)
(* --------------------------------------------------------------------- *)

Section BridgeHistory.
Import Bridge.

Ltac unfold_step :=
  unfold step, work_step, callback_step, stop_step, start, acquire,
    notify_stream, notify_done, return_work, set_buff, set_streaming,
    set_mutex, set_consumer, set_callback, set_stopper, emit in *.

Ltac step_cases :=
  unfold_step; simpl in *;
  repeat (case_match; simplify_eq/=); simplify_eq/=; try done.

Lemma returns_ok_step a s s' :
  returns_ok s -> step a s = Some s' -> returns_ok s'.
Proof.
  unfold returns_ok. intros (Hw & Hk & Hp) Hs.
  destruct s as [N d b st m c k p tr]; simpl in *.
  destruct a; step_cases; simpl in *;
    (split; [|split]); intros ? ?; simplify_eq; eauto.
Qed.

(** X13. In every state the bridge can reach: a call of [work] that
    has returned has returned WORK_DONE, 0 or the block size, never
    another count; the callback has returned 0; and [stop] has returned
    true. *)
Theorem returns_are_fixed s :
  reachable s ->
  (forall r, consumer s = W_returned r ->
     r = WORK_DONE \/ r = 0 \/ r = to_int (_airspyhf_output_size s)) /\
  (forall r, callback s = K_returned r -> r = 0) /\
  (forall r, stopper s = S_returned r -> r = true).
Proof.
  intros (n & d & acts & Hr). fold (returns_ok s).
  assert (returns_ok (constructed n d)) as H0.
  { unfold returns_ok; simpl. repeat split; intros; discriminate. }
  revert Hr H0. generalize (constructed n d).
  induction acts as [|a acts IH]; intros s0 Hr H0; simpl in Hr.
  - by simplify_eq.
  - destruct (step a s0) as [s1|] eqn:Hs; simpl in Hr; [|done].
    apply (IH s1); [done|]. by eapply returns_ok_step.
Qed.

Lemma hand_over_step a s s' pre :
  hand_over pre s -> step a s = Some s' -> hand_over (pre ++ handed [a]) s'.
Proof.
  unfold hand_over, copied. intros Hh Hs.
  destruct s as [N d b st m c k p tr]; simpl in *.
  destruct a; step_cases; simpl in *; rewrite ?app_nil_r;
    try done; try (destruct Hh as (pre' & -> & Hh));
    try (by eexists; split; [reflexivity|]);
    try (by apply sublist_inserts_r);
    try (by apply sublist_app).
Qed.

Lemma hand_over_run acts : forall s s' pre,
  hand_over pre s -> run acts s = Some s' ->
  hand_over (pre ++ handed acts) s'.
Proof.
  induction acts as [|a acts IH]; intros s s' pre Hh Hr; simpl in Hr.
  - simplify_eq. unfold handed; simpl. by rewrite app_nil_r.
  - destruct (step a s) as [s1|] eqn:Hs; simpl in Hr; [|done].
    replace (pre ++ handed (a :: acts))
      with ((pre ++ handed [a]) ++ handed acts).
    + eapply IH; [|done]. by eapply hand_over_step.
    + rewrite <- app_assoc. f_equal. unfold handed. simpl. by destruct a.
Qed.

(** X14. After any history of the bridge, the blocks that have been
    copied out, in the order of the copies, are among the blocks the
    driver handed to the callback, in the order it handed them: no
    block is copied twice, none out of turn, none that was not handed
    over; a block may be left out. *)
Theorem blocks_copied_in_order n d acts s :
  run acts (constructed n d) = Some s ->
  sublist (copied (trace s)) (handed acts).
Proof.
  intros Hr.
  pose proof (hand_over_run acts (constructed n d) s [] (sublist_nil) Hr)
    as Hh.
  simpl in Hh. unfold hand_over in Hh.
  destruct (in_hand (callback s)); [|done].
  destruct Hh as (pre' & -> & Hh). by apply sublist_inserts_r.
Qed.

Lemma run_released n th s :
  (n <= 4)%nat ->
  match run (replicate n (step_of th)) s with
  | Some s' => _stream_mutex s' = None
  | None => False
  end ->
  exists k s',
    (k <= 4)%nat /\
    run (replicate k (step_of th)) s = Some s' /\
    _stream_mutex s' = None.
Proof.
  intros Hn Hs. destruct (run _ s) as [s'|] eqn:Hrun; [|done].
  by exists n, s'.
Qed.

(** X15. In every state the bridge can reach, the thread that holds
    the stream lock can go on by itself, and after at most four of its
    own steps it has let go of the lock, by entering a wait or by
    returning; for [stop] the driver answers success. No thread ever
    blocks with the lock in its hands. *)
Theorem lock_is_released s th :
  reachable s ->
  _stream_mutex s = Some th ->
  exists k s',
    (k <= 4)%nat /\
    run (replicate k (step_of th)) s = Some s' /\
    _stream_mutex s' = None.
Proof.
  intros Hr Hm. destruct (reachable_ok s Hr) as [(Hw & Hk & Hp) _].
  clear Hr. destruct s as [N d b st m c k p tr]; simpl in *. subst m.
  destruct th.
  - assert (work_locked c = true) as Hc by by apply Hw.
    clear Hw Hk Hp.
    destruct c as [| | n out0 |out0| | | |]; try done.
    + destruct st; [destruct (to_uint32 n <? N) eqn:Hn|].
      * apply (run_released 1); [lia|].
        simpl; unfold_step; simpl. by rewrite Hn.
      * apply (run_released 3); [lia|].
        simpl; unfold_step; simpl. rewrite Hn. simpl. by destruct k.
      * by apply (run_released 1); [lia|].
    + apply (run_released 2); [lia|]. by destruct k, st.
    + apply (run_released 1); [lia|]. by destruct b, st.
  - assert (callback_locked k = true) as Hc by by apply Hk.
    clear Hw Hk Hp.
    destruct k as [| |t| | |t|t| |]; try done.
    + destruct b as [b|], st.
      1,2,4: apply (run_released 4); [lia|]; simpl; unfold_step;
        simpl; destruct (dropped_samples t =? 0); by destruct c.
      by apply (run_released 1); [lia|].
    + apply (run_released 3); [lia|]. simpl; unfold_step.
      destruct (dropped_samples t =? 0); by destruct b, c.
    + apply (run_released 2); [lia|]. by destruct b, c.
    + apply (run_released 1); [lia|]. by destruct c.
  - assert (stop_locked p = true) as Hc by by apply Hp.
    destruct p; try done. by apply (run_released 1); [lia|].
Qed.

Lemma run_step a acts s s1 r :
  step a s = Some s1 -> run acts s1 = r -> run (a :: acts) s = r.
Proof. intros Hs Hr. simpl. by rewrite Hs. Qed.

(** X16. One delivery on a streaming device, with a request of at
    least one block. Whether [work] comes first and waits for the
    callback, or the callback comes first and waits for a buffer, the
    outcome is the same: the block handed over is copied into the
    buffer offered, one block of samples, the slot is empty again, the
    lock is free, [work] has returned the block size and the callback
    0. *)
Theorem one_delivery size d n out0 t :
  size <= to_uint32 n ->
  let delivered :=
    State size d None true None (W_returned (to_int size)) (K_returned 0)
      S_idle
      (Notify_done :: Clear :: Memcpy out0 (samples t) size
       :: (if dropped_samples t =? 0 then []
           else [Warn_dropped (dropped_samples t)])
       ++ [Notify_stream; Store out0; Info_start]) in
  run (work_first n out0 t) (constructed size d) = Some delivered /\
  run (callback_first n out0 t) (constructed size d) = Some delivered.
Proof.
  intros Hn.
  assert ((to_uint32 n <? size) = false) as Hlt by (apply Z.ltb_ge; lia).
  destruct (dropped_samples t =? 0) eqn:Hd; cbv zeta; split;
    unfold work_first, callback_first, constructed;
    repeat (eapply run_step;
            [cbv -[Z.ltb Z.eqb to_uint32 to_int dropped_samples samples];
             rewrite ?Hlt, ?Hd; reflexivity|]);
    reflexivity.
Qed.

End BridgeHistory.

Lemma returned_zero_reachable : Bridge.reachable Bridge.returned_zero.
Proof.
  exists 1024, 0,
    [Bridge.Call_start 0; Bridge.Call_work 5 7%nat; Bridge.Step_work;
     Bridge.Step_work].
  vm_compute. reflexivity.
Defined.

Lemma returns_are_fixed_witness :
  Bridge.reachable Bridge.returned_zero /\
  (0 = Bridge.WORK_DONE \/ 0 = 0 \/ 0 = Bridge.to_int 1024).
Proof.
  split; [exact returned_zero_reachable|].
  destruct (returns_are_fixed Bridge.returned_zero returned_zero_reachable)
    as (Hw & _ & _).
  exact (Hw 0 eq_refl).
Defined.

Lemma blocks_copied_in_order_witness :
  sublist [99%nat] [99%nat; 100%nat].
Proof.
  apply (blocks_copied_in_order 1024 0
           (Bridge.work_first 1024 7%nat (Bridge.Transfer 99%nat 0)
            ++ [Bridge.Call_callback (Bridge.Transfer 100%nat 0)])
           (Bridge.State 1024 0 None true None (Bridge.W_returned 1024)
              (Bridge.K_lock (Bridge.Transfer 100%nat 0)) Bridge.S_idle
              [Bridge.Notify_done; Bridge.Clear;
               Bridge.Memcpy 7%nat 99%nat 1024; Bridge.Notify_stream;
               Bridge.Store 7%nat; Bridge.Info_start])).
  vm_compute. reflexivity.
Defined.

Lemma lock_is_released_witness :
  exists k s',
    (k <= 4)%nat /\
    Bridge.run (replicate k Bridge.Step_callback) Bridge.mid_copy = Some s' /\
    Bridge._stream_mutex s' = None.
Proof.
  exact (lock_is_released Bridge.mid_copy Bridge.T_callback
           mid_copy_reachable eq_refl).
Defined.

Lemma one_delivery_witness :
  Bridge.run (Bridge.work_first 2048 7%nat (Bridge.Transfer 99%nat 5))
             (Bridge.constructed 1024 0)
    = Bridge.run (Bridge.callback_first 2048 7%nat (Bridge.Transfer 99%nat 5))
                 (Bridge.constructed 1024 0).
Proof.
  destruct (one_delivery 1024 0 2048 7%nat (Bridge.Transfer 99%nat 5))
    as [Hw Hc]; [vm_compute; discriminate|].
  rewrite Hw, Hc. reflexivity.
Defined.

(* --------------------------------------------------------------------- *)
(** ** bladerf_common: histories of the device cache                      *)
(* --------------------------------------------------------------------- *)

Section CacheHistory.
Import BladeRF.
Context {devinfo : Type} `{libbladeRF_open devinfo}.

(** The driver opens a unit that answers and that matches the request. *)
Hypothesis open_matches : forall d conns status r,
  bladerf_open_with_devinfo d conns = (status, r) ->
  0 <= status ->
  0 <= (bladerf_get_devinfo r).1 /\
  bladerf_devinfo_matches d (bladerf_get_devinfo r).2 = true.

Lemma filter_ext_in {A} (P Q : A -> Prop) `{!forall x, Decision (P x)}
    `{!forall x, Decision (Q x)} (l : list A) :
  (forall x, x ∈ l -> P x <-> Q x) -> filter P l = filter Q l.
Proof.
  induction l as [|a l IH]; intros Hx; [reflexivity|].
  rewrite !filter_cons.
  rewrite IH by (intros x Hin; apply Hx; by right).
  pose proof (Hx a (list_elem_of_here _ _)) as Ha.
  destruct (decide (P a)) as [Hp|Hp], (decide (Q a)) as [Hq|Hq];
    try reflexivity; exfalso; tauto.
Qed.

Lemma filter_all {A} (P : A -> Prop) `{!forall x, Decision (P x)}
    (l : list A) :
  (forall x, x ∈ l -> P x) -> filter P l = l.
Proof.
  induction l as [|a l IH]; intros Hx; [reflexivity|].
  rewrite filter_cons_True by (apply Hx; by left).
  rewrite IH; [done|]. intros x Hin. apply Hx. by right.
Qed.

Lemma find_ext {A} (f g : A -> bool) l :
  (forall x, f x = g x) -> find f l = find g l.
Proof.
  intros Hfg. induction l as [|a l IH]; simpl; [done|].
  by rewrite Hfg, IH.
Qed.

Lemma find_app_r {A} (f : A -> bool) l x :
  (forall y, y ∈ l -> f y = false) -> f x = true ->
  find f (l ++ [x]) = Some x.
Proof.
  induction l as [|a l IH]; intros Hl Hx; simpl.
  - by rewrite Hx.
  - rewrite (Hl a) by by left. apply IH; [|done].
    intros y Hy. apply Hl. by right.
Qed.

Lemma release_last_owner w h :
  cache_ok w ->
  use_count h w = 1%nat ->
  h ∈ _devs w /\
  get h w ∈ connections w /\
  _devs (release h w) = filter (fun h' => h' <> h) (_devs w) /\
  connections (release h w) =
    filter (fun r => r <> get h w) (connections w) /\
  use_count h (release h w) = 0%nat.
Proof.
  intros Hok Hu.
  assert (h ∈ _devs w) as Hin by (apply (live_cached _ Hok); lia).
  split; [done|]. split.
  { apply (connections_cached _ Hok). eauto. }
  unfold release. rewrite Hu. simpl.
  assert (use_count h (with_use h 0 w) = 0%nat) as H0
    by (apply use_count_with_use_eq; lia).
  rewrite get_with_use. unfold close; simpl. split; [|split; [done|]].
  - apply filter_ext_in. intros h' Hh'. unfold expired.
    destruct (decide (h' = h)) as [-> | Hne].
    + rewrite H0. simpl. split; done.
    + rewrite use_count_with_use_ne by done.
      pose proof (cached_live _ Hok h' Hh') as Hl.
      destruct (use_count h' w); [done|]. simpl. split; done.
  - exact H0.
Qed.

Lemma release_other_owners w h h' :
  h' <> h -> use_count h' (release h w) = use_count h' w.
Proof.
  intros Hne. unfold release.
  destruct (use_count h w) as [|n] eqn:Hc; [done|].
  destruct (n =? 0)%nat; unfold close; simpl;
    (etrans; [|apply (use_count_with_use_ne h h' n w Hne)]);
    by apply use_count_blocks.
Qed.

(** X17. The release of a handle of a cache in good order. By its last
    owner: the deleter runs, the cache loses the entry of this handle
    and no other, the driver's connections lose the connection of this
    handle and no other. By an owner that is not the last: the cache
    and the connections stay, the handle has one owner fewer. The
    owners of the other handles are untouched in both cases. *)
Theorem release_closes_with_last_owner w h :
  cache_ok w ->
  (use_count h w = 1%nat ->
     h ∈ _devs w /\
     get h w ∈ connections w /\
     _devs (release h w) = filter (fun h' => h' <> h) (_devs w) /\
     connections (release h w) =
       filter (fun r => r <> get h w) (connections w) /\
     use_count h (release h w) = 0%nat) /\
  ((1 < use_count h w)%nat ->
     _devs (release h w) = _devs w /\
     connections (release h w) = connections w /\
     S (use_count h (release h w)) = use_count h w) /\
  (forall h', h' <> h -> use_count h' (release h w) = use_count h' w).
Proof.
  intros Hok. split; [by apply release_last_owner|]. split.
  - intros Hu. unfold release.
    destruct (use_count h w) as [|[|n]] eqn:Hc; try lia. simpl.
    split; [done|]. split; [done|].
    rewrite use_count_with_use_eq; [done|]. lia.
  - intros h' Hne. by apply release_other_owners.
Qed.

Lemma open_ok_status device_name w h w' :
  open device_name w = (Ok h, w') ->
  0 <= (bladerf_get_devinfo_from_str device_name).1.
Proof.
  unfold open. destruct (bladerf_get_devinfo_from_str device_name) as [st d].
  simpl. destruct (Z.ltb_spec st 0); [discriminate | done].
Qed.

Lemma open_cases device_name w h w' :
  cache_ok w ->
  open device_name w = (Ok h, w') ->
  let d := (bladerf_get_devinfo_from_str device_name).2 in
  (first_match d w = Some h /\ w' = with_use h (S (use_count h w)) w) \/
  (first_match d w = None /\ h = length (blocks w) /\
   exists status r,
     bladerf_open_with_devinfo d (connections w) = (status, r) /\
     0 <= status /\
     w' = Devs (blocks w ++ [Block r 1]) (_devs w ++ [h])
               (connections w ++ [r])).
Proof.
  intros Hok Ho. pose proof (open_ok_status _ _ _ _ Ho) as Hst.
  destruct (bladerf_get_devinfo_from_str device_name) as [st d] eqn:Hd.
  simpl in *. rewrite (open_spec _ _ _ _ Hok Hd Hst) in Ho.
  destruct (first_match d w) as [h0|].
  - left. by simplify_eq.
  - right. destruct (bladerf_open_with_devinfo d (connections w))
      as [status r] eqn:Hopen.
    destruct (Z.ltb_spec status 0); [discriminate|].
    simplify_eq. split; [done|]. split; [done|]. eauto.
Qed.

(** X18. [open] called twice with the same name, on a cache in good
    order: when the first call returns a handle, the second returns
    the same handle, with one owner more, and opens nothing; the handle
    is in the cache. This holds whether the first call found the
    device in the cache or had the driver open it. *)
Theorem open_twice_same_handle device_name w h w1 :
  cache_ok w ->
  open device_name w = (Ok h, w1) ->
  open device_name w1 = (Ok h, with_use h (S (use_count h w1)) w1) /\
  h ∈ _devs w1.
Proof.
  intros Hok Ho. pose proof (open_ok_status _ _ _ _ Ho) as Hst.
  pose proof (cache_ok_open open_matches device_name w Hok) as Hok1.
  rewrite Ho in Hok1. simpl in Hok1.
  destruct (open_cases _ _ _ _ Hok Ho)
    as [[Hf ->] | (Hf & -> & st & r & Hopen & Hs & ->)];
    destruct (bladerf_get_devinfo_from_str device_name) as [st0 d] eqn:Hd;
    simpl in *; rewrite (open_spec _ _ _ _ Hok1 Hd Hst).
  - assert (first_match d (with_use h (S (use_count h w)) w) = Some h) as ->.
    { unfold first_match in *. simpl. rewrite <- Hf. apply find_ext.
      intros h'. unfold identity. by rewrite get_with_use. }
    split; [done|]. simpl. apply find_some in Hf as [Hin _].
    by apply list_elem_of_In.
  - set (w1 := Devs _ _ _) in *.
    assert (first_match d w1 = Some (length (blocks w))) as ->.
    { unfold first_match. subst w1. simpl. apply find_app_r.
      - intros h' Hh'.
        rewrite <- (find_none_all _ _ h' Hf Hh'). f_equal.
        unfold identity, get. simpl.
        destruct (use_count_block h' w (cached_live _ Hok h' Hh'))
          as (b & Hb & _).
        rewrite lookup_app_l by (by eapply lookup_lt_Some). done.
      - unfold identity, get. simpl.
        rewrite list_lookup_middle by done. simpl.
        by destruct (open_matches _ _ _ _ Hopen Hs). }
    split; [done|]. subst w1. simpl. apply elem_of_app. right. by left.
Qed.

(** X19. [open] followed by the release of the handle it returned, on
    a cache in good order, leaves the cache and the driver's
    connections as they were before the call, and every handle that
    was cached keeps its owners and its connection: a device opened for
    one owner is closed again, a cached one loses the owner it had
    gained. *)
Theorem open_then_release_restores device_name w h w' :
  cache_ok w ->
  open device_name w = (Ok h, w') ->
  _devs (release h w') = _devs w /\
  connections (release h w') = connections w /\
  forall h', h' ∈ _devs w ->
    use_count h' (release h w') = use_count h' w /\
    get h' (release h w') = get h' w.
Proof.
  intros Hok Ho.
  destruct (open_cases _ _ _ _ Hok Ho)
    as [[Hf ->] | (Hf & -> & st & r & Hopen & Hs & ->)].
  - apply find_some in Hf as [Hin _]. apply list_elem_of_In in Hin.
    destruct (lock_release h w (cached_live _ Hok h Hin)) as [_ ->]. done.
  - pose proof (cache_ok_insert open_matches w _ st r Hok Hf Hopen Hs)
      as Hok1.
    set (h := length (blocks w)) in *.
    set (w1 := Devs _ _ _) in *.
    assert (use_count h w1 = 1%nat) as Hu.
    { unfold use_count. subst w1 h. simpl. by rewrite list_lookup_middle. }
    assert (forall h', h' ∈ _devs w ->
              h' <> h /\ use_count h' w1 = use_count h' w /\
              get h' w1 = get h' w) as Hold.
    { intros h' Hh'.
      destruct (use_count_block h' w (cached_live _ Hok h' Hh'))
        as (b & Hb & _).
      pose proof (lookup_lt_Some _ _ _ Hb) as Hlt.
      split; [subst h; lia|]. unfold use_count, get. subst w1. simpl.
      rewrite lookup_app_l by done. done. }
    destruct (release_last_owner w1 h Hok1 Hu) as (_ & _ & Hd & Hc & _).
    assert (get h w1 = r) as Hg.
    { unfold get. subst w1 h. simpl. by rewrite list_lookup_middle. }
    split; [|split].
    + rewrite Hd. subst w1. simpl. rewrite filter_app.
      rewrite filter_all by (intros h' Hh'; by destruct (Hold h' Hh')).
      rewrite filter_cons_False by (intros Hne; by apply Hne).
      by rewrite filter_nil, app_nil_r.
    + rewrite Hc, Hg. subst w1. simpl.
      pose proof (connections_once _ Hok1) as Hnd. simpl in Hnd.
      apply NoDup_app in Hnd as (_ & Hnot & _).
      rewrite filter_app.
      rewrite filter_all
        by (intros r' Hr' ->; apply (Hnot r Hr'); by left).
      rewrite filter_cons_False by (intros Hne; by apply Hne).
      by rewrite filter_nil, app_nil_r.
    + intros h' Hh'. destruct (Hold h' Hh') as (Hne & Hu' & Hg').
      split; [by rewrite release_other_owners|].
      rewrite <- Hg'. unfold release. rewrite Hu. simpl.
      unfold close. simpl.
      etrans; [|apply (get_with_use h h' 0 w1)]. by apply get_blocks.
Qed.

End CacheHistory.

Lemma two_devs_ok : BladeRF.cache_ok BladeRF.two_devs.
Proof.
  assert (BladeRF.two_devs
          = (BladeRF.open "bbb" (BladeRF.open "aa" BladeRF.no_devs).2).2)
    as -> by (vm_compute; reflexivity).
  apply (cache_ok_open sim_open_matches), (cache_ok_open sim_open_matches).
  apply cache_ok_empty.
Qed.

Lemma release_closes_with_last_owner_witness :
  BladeRF._devs (BladeRF.release 0%nat BladeRF.two_devs) = [1%nat] /\
  BladeRF.connections (BladeRF.release 0%nat BladeRF.two_devs) = [3%nat].
Proof.
  destruct (release_closes_with_last_owner BladeRF.two_devs 0%nat two_devs_ok)
    as (Hlast & _ & _).
  destruct (Hlast eq_refl) as (_ & _ & Hd & Hc & _).
  split; [rewrite Hd | rewrite Hc]; vm_compute; reflexivity.
Defined.

Lemma open_twice_same_handle_witness :
  exists w1 w2,
    BladeRF.open "bbb" BladeRF.two_devs = (Ok 1%nat, w1) /\
    BladeRF.open "bbb" w1 = (Ok 1%nat, w2) /\
    BladeRF.use_count 1%nat w2 = 3%nat.
Proof.
  eexists _, _. split; [vm_compute; reflexivity|].
  destruct (open_twice_same_handle sim_open_matches "bbb" BladeRF.two_devs
              1%nat _ two_devs_ok ltac:(vm_compute; reflexivity))
    as [Ho _].
  split; [exact Ho | vm_compute; reflexivity].
Defined.

Lemma open_then_release_restores_witness :
  exists h w',
    BladeRF.open "cccc" BladeRF.two_devs = (Ok h, w') /\
    BladeRF._devs w' = [0%nat; 1%nat; 2%nat] /\
    BladeRF._devs (BladeRF.release h w') = [0%nat; 1%nat] /\
    BladeRF.connections (BladeRF.release h w') = [2%nat; 3%nat].
Proof.
  eexists _, _. split; [vm_compute; reflexivity|].
  split; [reflexivity|].
  destruct (open_then_release_restores sim_open_matches "cccc"
              BladeRF.two_devs _ _ two_devs_ok
              ltac:(vm_compute; reflexivity))
    as (Hd & Hc & _).
  split; [exact Hd | exact Hc].
Defined.

(* --------------------------------------------------------------------- *)
(** ** airspyhf_source_c: gains read back                                 *)
(* --------------------------------------------------------------------- *)

Section GainHistory.
Import AirspyHF.

Lemma att_values_fixed : forallb value_is_fixed (seqZ 0 256) = true.
Proof. vm_compute. reflexivity. Qed.

Lemma att_value_fixed v :
  0 <= v < 256 ->
  _airspyhf_att_db_to_value (_airspyhf_att_value_to_db v) = Ok v.
Proof.
  intros Hv. pose proof att_values_fixed as Hall.
  rewrite forallb_forall in Hall.
  assert (value_is_fixed v = true) as Hf.
  { apply Hall. apply list_elem_of_In, elem_of_seqZ. lia. }
  unfold value_is_fixed in Hf.
  destruct (_airspyhf_att_db_to_value _); try done.
  apply Z.eqb_eq in Hf. by subst.
Qed.

Lemma att_value_range gain att :
  _airspyhf_att_db_to_value gain = Ok att -> 0 <= att < 256.
Proof.
  unfold _airspyhf_att_db_to_value, to_unsigned.
  destruct (round _) as [z|]; [|done].
  destruct (Z.leb_spec 0 z), (Z.ltb_spec z (2 ^ 8)); simpl; try done.
  intros [= <-]. lia.
Qed.

(** X20. The gain that [set_gain] returns for "ATT" or "LNA" is
    settled: [get_gain] answers the same value, and a request for that
    value returns it again and changes nothing, with no call to the
    driver and no line logged, whatever the driver would answer. *)
Theorem returned_gain_is_settled ret ret' gain name s g s' :
  name = "ATT" \/ name = "LNA" ->
  set_gain ret gain name s = Ok (g, s') ->
  set_gain ret' g name s' = Ok (g, s') /\ get_gain name s' = (g, s').
Proof.
  intros [-> | ->] Hs.
  - destruct (_airspyhf_att_db_to_value gain) as [att| | |] eqn:Hv;
      try (unfold set_gain in Hs; simpl in Hs; rewrite Hv in Hs; done).
    pose proof (att_value_range _ _ Hv) as Hr.
    rewrite (set_gain_att _ _ _ _ Hv) in Hs.
    assert (_att s' = att /\ g = _airspyhf_att_value_to_db att) as [Ha ->].
    { destruct (Z.eqb_spec (_att s) att); [by simplify_eq|].
      destruct (ret =? AIRSPYHF_SUCCESS); by simplify_eq. }
    rewrite (set_gain_att _ _ _ _ (att_value_fixed att Hr)).
    rewrite Ha, Z.eqb_refl. unfold get_gain. simpl. by rewrite Ha.
  - unfold set_gain in Hs. simpl in Hs.
    set (lna := _airspyhf_lna_db_to_flag gain) in *.
    assert (lna = 0 \/ lna = 1) as Hl.
    { subst lna. unfold _airspyhf_lna_db_to_flag.
      destruct (3 <=? gain)%float; auto. }
    clearbody lna.
    assert (_lna s' = lna /\ g = _airspyhf_lna_flag_to_db lna) as [Ha ->].
    { destruct (Z.eqb_spec (_lna s) lna); simpl in Hs; [by simplify_eq|].
      destruct (ret =? AIRSPYHF_SUCCESS); simpl in Hs; simplify_eq/=; done. }
    assert (_airspyhf_lna_db_to_flag (_airspyhf_lna_flag_to_db lna) = lna)
      as Hfix.
    { destruct Hl as [-> | ->]; reflexivity. }
    unfold set_gain, get_gain. simpl. rewrite Hfix, Ha, Z.eqb_refl. simpl.
    by rewrite Ha.
Qed.

End GainHistory.

Lemma returned_gain_is_settled_witness :
  exists s',
    AirspyHF.set_gain 0 (-8)%float "ATT" AirspyHF.constructed
      = Ok ((-6)%float, s') /\
    AirspyHF.set_gain 1 (-6)%float "ATT" s' = Ok ((-6)%float, s') /\
    AirspyHF.get_gain "ATT" s' = ((-6)%float, s').
Proof.
  eexists. split; [vm_compute; reflexivity|].
  exact (returned_gain_is_settled 0 1 (-8)%float "ATT" AirspyHF.constructed
           (-6)%float _ (or_introl eq_refl) ltac:(vm_compute; reflexivity)).
Defined.
